(** * QuSpin: the [_constructors] build helper and the spinful-fermion example

    A shallow embedding of

    - [quspin/basis/basis_1d/_constructors/setup.py]: the functions
      [cython_files] and [configuration] and the [__main__] block;
    - [sphinx/doc_examples/spinful_fermion_basis_general-adv-example.py]:
      the index arithmetic that builds the symmetry generators [T_x], [T_y],
      [S] and the site-coupling lists.

    The build helper talks to its surroundings (the interpreter's import
    system, the file system, Cython, numpy.distutils).  Those surroundings are
    a record [Env]; the script's own control flow is written in a small
    writer-and-exception monad whose log is the sequence of library calls the
    script makes.  numpy is a hard requirement of the script (its imports are
    not guarded), so an [Env] describes an installation in which numpy is
    present; Cython is optional, exactly as the source treats it.

    The example script computes with numpy [int64] arrays: they are lists of
    [Z] and every element-wise operation writes its wrap-around out. *)

From Stdlib Require Import ZArith String Ascii List Lia Permutation FinFun.
From Stdlib Require Import Floats.SpecFloat.
From stdpp Require Import base tactics option list.

Import ListNotations.
Local Open Scope string_scope.

(* ===================================================================== *)
(** ** [os.path] on a POSIX system *)
(* ===================================================================== *)

Module OsPath.

Definition sep : ascii := "/"%char.

Definition is_sep (c : ascii) : bool := Ascii.eqb c sep.

Definition startswith_sep (p : string) : bool :=
  match p with
  | String c _ => is_sep c
  | EmptyString => false
  end.

Fixpoint endswith_sep (p : string) : bool :=
  match p with
  | EmptyString => false
  | String c EmptyString => is_sep c
  | String _ q => endswith_sep q
  end.

Definition is_empty (p : string) : bool :=
  match p with EmptyString => true | _ => false end.

(** [posixpath.join(a, b)] with one component [b]:
<<
    if b.startswith(sep):              path = b
    elif not path or path.endswith(sep): path += b
    else:                              path += sep + b
>> *)
Definition join (a b : string) : string :=
  if startswith_sep b then b
  else if is_empty a || endswith_sep a then a ++ b
  else a ++ String sep b.

Fixpoint drop_while {A} (f : A -> bool) (l : list A) : list A :=
  match l with
  | [] => []
  | c :: l' => if f c then drop_while f l' else l
  end.

(** [posixpath.dirname(p)]:
<<
    i = p.rfind(sep) + 1
    head = p[:i]
    if head and head != sep*len(head): head = head.rstrip(sep)
    return head
>>
    computed on the reversed character list: [p[:i]] is what is left when
    the characters after the last separator are dropped. *)
Definition dirname (p : string) : string :=
  let rhead := drop_while (fun c => negb (is_sep c))
                          (rev (list_ascii_of_string p)) in
  let rhead' :=
    if forallb is_sep rhead then rhead else drop_while is_sep rhead in
  string_of_list_ascii (rev rhead').

End OsPath.

(* ===================================================================== *)
(** ** Exceptions, library calls and the script monad *)
(* ===================================================================== *)

Module Py.

(** The exception classes the script names in an [except] clause, and one
    constructor for every other class (none of which derives from the two
    named ones). *)
Inductive exn : Type :=
| IndexError
| ImportError
| OtherError (cls : string).

Definition exn_eqb (e1 e2 : exn) : bool :=
  match e1, e2 with
  | IndexError, IndexError => true
  | ImportError, ImportError => true
  | OtherError c1, OtherError c2 => String.eqb c1 c2
  | _, _ => false
  end.

Inductive result (A : Type) : Type :=
| Ret (a : A)
| Raise (e : exn).
Arguments Ret {A} a.
Arguments Raise {A} e.

Section Monad.
(** [event] is the type of logged library calls. *)
Context {event : Type}.

Definition M (A : Type) : Type := (list event * result A)%type.

Definition ret {A} (a : A) : M A := ([], Ret a).

Definition raise {A} (e : exn) : M A := ([], Raise e).

Definition emit (ev : event) : M unit := ([ev], Ret tt).

Definition bind {A B} (m : M A) (k : A -> M B) : M B :=
  match m with
  | (t1, Ret a) => let '(t2, r) := k a in ((t1 ++ t2)%list, r)
  | (t1, Raise e) => (t1, Raise e)
  end.

(** [try: body  except cls: handler] *)
Definition try_except {A} (body : M A) (cls : exn) (handler : M A) : M A :=
  match body with
  | (t1, Raise e) =>
      if exn_eqb e cls
      then let '(t2, r) := handler in ((t1 ++ t2)%list, r)
      else (t1, Raise e)
  | done => done
  end.

Definition trace {A} (m : M A) : list event := fst m.
Definition outcome {A} (m : M A) : result A := snd m.
End Monad.

Arguments M : clear implicits.

End Py.

Import Py.

Notation "x <- m ;; k" := (bind m (fun x => k))
  (at level 90, m at level 80, right associativity).
Notation "m ;;; k" := (bind m (fun _ => k))
  (at level 90, right associativity).

(* ===================================================================== *)
(** ** [setup.py] *)
(* ===================================================================== *)

Module Setup.

(** The keyword arguments of one [config.add_extension] call, as the
    script passes them.  [sources] is a single path (a [str]), not a
    list. *)
Record Extension : Type := mkExtension {
  ext_name : string;
  sources : string;
  include_dirs : list string;
  extra_compile_args : list string;
  language : string
}.

(** A [numpy.distutils.misc_util.Configuration] object: the arguments of
    its constructor and the extensions added so far, oldest first. *)
Record Configuration : Type := mkConfiguration {
  package_name : string;
  parent_name : string;
  top_path : option string;
  ext_modules : list Extension
}.

Definition add_extension (config : Configuration) (e : Extension)
  : Configuration :=
  {| package_name := package_name config;
     parent_name := parent_name config;
     top_path := top_path config;
     ext_modules := (ext_modules config ++ [e])%list |}.

(** The library calls the script makes. *)
Inductive event : Type :=
| EvGlob (pattern : string)
| EvCythonize (module_list : list string) (lang : string)
| EvConfiguration (package_name parent_name : string)
                  (top_path : option string)
| EvSetup (attrs : Configuration).

(** Which library calls write files: Cython writes the generated C++
    sources, the distutils build writes object files and libraries. *)
Definition writes_files (ev : event) : bool :=
  match ev with
  | EvGlob _ => false
  | EvCythonize _ _ => true
  | EvConfiguration _ _ _ => false
  | EvSetup _ => true
  end.

Definition is_cythonize (ev : event) : bool :=
  match ev with EvCythonize _ _ => true | _ => false end.

Definition is_configuration (ev : event) : bool :=
  match ev with EvConfiguration _ _ _ => true | _ => false end.

Definition is_setup (ev : event) : bool :=
  match ev with EvSetup _ => true | _ => false end.

(** What the script cannot decide by itself. *)
Record Env : Type := mkEnv {
  (** [__file__] *)
  script_file : string;
  (** [os.path.realpath] *)
  realpath : string -> string;
  (** [glob.glob]: the paths that match a pattern *)
  glob_matches : string -> list string;
  (** does [from Cython.Build import cythonize] succeed? *)
  cython_importable : bool;
  (** the exception [cythonize] ends with, if any *)
  cythonize_raises : list string -> string -> option exn;
  (** [numpy.get_include()] *)
  numpy_include : string;
  (** the exception [numpy.distutils.core.setup] ends with, if any *)
  setup_raises : Configuration -> option exn
}.

Definition of_raises (o : option exn) : M event unit :=
  match o with
  | None => ret tt
  | Some e => raise e
  end.

Section WithEnv.
Context (env : Env).

(** [from Cython.Build import cythonize] *)
Definition import_cythonize : M event unit :=
  if cython_importable env then ret tt else raise ImportError.

Definition glob (pattern : string) : M event (list string) :=
  emit (EvGlob pattern) ;;; ret (glob_matches env pattern).

Definition cythonize (module_list : list string) (lang : string)
  : M event unit :=
  emit (EvCythonize module_list lang) ;;;
  of_raises (cythonize_raises env module_list lang).

Definition setup (attrs : Configuration) : M event unit :=
  emit (EvSetup attrs) ;;; of_raises (setup_raises env attrs).

Definition new_Configuration (name parent : string) (top : option string)
  : M event Configuration :=
  emit (EvConfiguration name parent top) ;;;
  ret {| package_name := name; parent_name := parent;
         top_path := top; ext_modules := [] |}.

(** [os.path.dirname(os.path.realpath(__file__))] *)
Definition package_dir : string :=
  OsPath.dirname (realpath env (script_file env)).

(** [def cython_files()] *)
Definition cython_files : M event unit :=
  USE_CYTHON <- try_except (import_cythonize ;;; ret true)
                           ImportError
                           (ret false) ;;
  cython_src <- glob (OsPath.join package_dir "*.pyx") ;;
  if (USE_CYTHON : bool)
  then cythonize cython_src "c++"
  else ret tt.

(** [def configuration(parent_package='', top_path=None)].  The string
    literal between the constructor call and the first live
    [add_extension] is an expression statement: it is evaluated and
    dropped. *)
Definition configuration (parent_package : string)
                         (top : option string)
  : M event Configuration :=
  config <- new_Configuration "_constructors" parent_package top ;;
  let hcp_src := OsPath.join package_dir "hcp_basis_ops.cpp" in
  let config :=
    add_extension config
      {| ext_name := "hcp_basis_ops"; sources := hcp_src;
         include_dirs := [numpy_include env];
         extra_compile_args := ["-fno-strict-aliasing"];
         language := "c++" |} in
  let boson_src := OsPath.join package_dir "boson_basis_ops.cpp" in
  let config :=
    add_extension config
      {| ext_name := "boson_basis_ops"; sources := boson_src;
         include_dirs := [numpy_include env];
         extra_compile_args := ["-fno-strict-aliasing"];
         language := "c++" |} in
  ret config.

(** [sys.argv[1]] *)
Definition argv_get (argv : list string) (i : nat) : M event string :=
  match argv !! i with
  | Some a => ret a
  | None => raise IndexError
  end.

(** The [if __name__ == '__main__':] block, run with [sys.argv = argv].
    The two imports above the [try] ([numpy.distutils.core.setup] and
    [sys]) succeed in every [Env].  [todict()] hands the configuration's
    attributes to [setup] as keyword arguments.  The [except IndexError]
    clause guards the whole body, so it also catches an IndexError that
    escapes from [cython_files] or [setup]. *)
Definition main (argv : list string) : M event unit :=
  try_except
    (instr <- argv_get argv 1 ;;
     if String.eqb instr "build_templates"
     then cython_files
     else (config <- configuration "" (Some "") ;; setup config))
    IndexError
    (ret tt).

End WithEnv.

(** The extension record of a target [name] whose one source is
    [name.cpp] in the package directory, whose one include directory is
    numpy's and whose one extra compiler flag disables strict aliasing. *)
Definition registered (env : Env) (name : string) : Extension :=
  {| ext_name := name;
     sources := OsPath.join (package_dir env) (name ++ ".cpp");
     include_dirs := [numpy_include env];
     extra_compile_args := ["-fno-strict-aliasing"];
     language := "c++" |}.

(** The names of the four targets whose registration sits inside the
    string literal. *)
Definition commented_out_targets : list string :=
  ["inplace_ops"; "spin_basis_ops"; "hcb_basis_ops"; "fermion_basis_ops"].

End Setup.

(* ===================================================================== *)
(** ** The numpy operations the example script uses *)
(* ===================================================================== *)

Local Open Scope Z_scope.

Module Numpy.

(** An [int64] array of one dimension is a [list Z] whose elements lie in
    [-2^63, 2^63); arithmetic wraps around silently. *)
Definition wrap64 (z : Z) : Z := (z + 2^63) mod 2^64 - 2^63.

(** [np.arange(n)] for a Python integer [n].  The entries are [int64]
    values only when [n <= 2^63]; numpy refuses a larger [n], and every
    statement about arrays of arbitrary size carries that bound. *)
Definition arange (n : Z) : list Z := map Z.of_nat (seq 0 (Z.to_nat n)).

(** [np.remainder] and [np.floor_divide] on [int64]: the sign follows the
    divisor, and a zero divisor gives zero. *)
Definition remainder (a b : Z) : Z :=
  if b =? 0 then 0 else wrap64 (a mod b).

Definition floor_divide (a b : Z) : Z :=
  if b =? 0 then 0 else wrap64 (a / b).

(** array [%] scalar, array [//] scalar, array [+] scalar,
    scalar [*] array *)
Definition mod_scalar (a : list Z) (k : Z) : list Z :=
  map (fun v => remainder v k) a.

Definition floordiv_scalar (a : list Z) (k : Z) : list Z :=
  map (fun v => floor_divide v k) a.

Definition add_scalar (a : list Z) (k : Z) : list Z :=
  map (fun v => wrap64 (v + k)) a.

Definition scalar_mul (k : Z) (a : list Z) : list Z :=
  map (fun v => wrap64 (k * v)) a.

(** array [+] array, for two arrays of one length (the only use the script
    makes of it) *)
Definition add (a b : list Z) : list Z :=
  zip_with (fun u v => wrap64 (u + v)) a b.

(** [np.hstack((a, b))] of two arrays of one dimension *)
Definition hstack (a b : list Z) : list Z := (a ++ b)%list.

(** [np.roll(a, shift)] of an array of one dimension: with
    [k = shift mod len(a)], the result is [a[-k:]] followed by [a[:-k]]. *)
Definition roll (a : list Z) (shift : Z) : list Z :=
  match a with
  | [] => []
  | _ =>
      let n := length a in
      let k := Z.to_nat (shift mod Z.of_nat n) in
      (drop (n - k)%nat a ++ take (n - k)%nat a)%list
  end.

(** [a[i]] for an integer [i]: a negative index counts from the end, an
    index out of range raises [IndexError] ([None]). *)
Definition getitem (a : list Z) (i : Z) : option Z :=
  let n := Z.of_nat (length a) in
  let j := if i <? 0 then i + n else i in
  if (0 <=? j) && (j <? n) then a !! Z.to_nat j else None.

(** [a[idx]] for an integer array [idx] *)
Definition take_indices (a idx : list Z) : option (list Z) :=
  mapM (getitem a) idx.

End Numpy.

(* ===================================================================== *)
(** ** The example script *)
(* ===================================================================== *)

(** The values the script puts in its site-coupling lists. *)
Inductive pyval : Type :=
| PyFloat (f : spec_float)
| PyInt (n : Z)
| NpInt64 (n : Z).

(** A binary64 literal [m * 2^e]. *)
Definition float64 (m e : Z) : spec_float := binary_normalize 53 1024 m e false.

(** unary minus and unary plus of a Python float *)
Definition float_neg (f : spec_float) : spec_float := SFopp f.
Definition float_pos (f : spec_float) : spec_float := f.

(** [range(n)] *)
Definition range (n : Z) : list Z := map Z.of_nat (seq 0 (Z.to_nat n)).

(** The script for arbitrary lattice dimensions and model parameters. *)
Module Lattice.
Import Numpy.

Section Model.
Variables Lx Ly : Z.
Variables J U mu : spec_float.

Definition N_2d : Z := Lx * Ly.

Definition x : list Z := mod_scalar (arange N_2d) Lx.
Definition y : list Z := floordiv_scalar (arange N_2d) Lx.
Definition t_x : list Z :=
  add (mod_scalar (add_scalar x 1) Lx) (scalar_mul Lx y).
Definition t_y : list Z :=
  add x (scalar_mul Lx (mod_scalar (add_scalar y 1) Ly)).

Definition s : list Z := arange (2 * N_2d).
Definition T_x : list Z := hstack t_x (add_scalar t_x N_2d).
Definition T_y : list Z := hstack t_y (add_scalar t_y N_2d).
Definition S : list Z := roll s N_2d.

(** [[[c, i, T[i]] for i in range(n)]]; the whole comprehension raises
    ([None]) when one index is out of range. *)
Definition hops (c : spec_float) (T : list Z) (n : Z)
  : option (list (list pyval)) :=
  mapM (fun i => v ← getitem T i; Some [PyFloat c; PyInt i; NpInt64 v])
       (range n).

Definition hopping_left : option (list (list pyval)) :=
  l1 ← hops (float_neg J) T_x (2 * N_2d);
  l2 ← hops (float_neg J) T_y (2 * N_2d);
  Some (l1 ++ l2)%list.

Definition hopping_right : option (list (list pyval)) :=
  l1 ← hops (float_pos J) T_x (2 * N_2d);
  l2 ← hops (float_pos J) T_y (2 * N_2d);
  Some (l1 ++ l2)%list.

Definition potential : list (list pyval) :=
  map (fun i => [PyFloat (float_neg mu); PyInt i]) (range (2 * N_2d)).

Definition interaction : list (list pyval) :=
  map (fun i => [PyFloat U; PyInt i; PyInt (i + N_2d)]) (range N_2d).
End Model.

End Lattice.

(** The script as it stands: a 4 x 4 lattice. *)
Module Example.

Definition Lx : Z := 4.
Definition Ly : Z := 4.
Definition N_2d : Z := Lattice.N_2d Lx Ly.

Definition J : spec_float := float64 1 0.
Definition U : spec_float := float64 2 0.
Definition mu : spec_float := float64 1 (-1).

Definition t_x : list Z := Lattice.t_x Lx Ly.
Definition t_y : list Z := Lattice.t_y Lx Ly.
Definition s : list Z := Lattice.s Lx Ly.
Definition T_x : list Z := Lattice.T_x Lx Ly.
Definition T_y : list Z := Lattice.T_y Lx Ly.
Definition S : list Z := Lattice.S Lx Ly.

Definition hopping_left := Lattice.hopping_left Lx Ly J.
Definition hopping_right := Lattice.hopping_right Lx Ly J.
Definition potential := Lattice.potential Lx Ly mu.
Definition interaction := Lattice.interaction Lx Ly U.

End Example.

(** The lattice translations as functions on the site indices of one
    species: one step along x inside a row of [Lx] sites, one step along y
    through the [Ly] rows. *)
Module Translation.
Definition step_x (Lx : Z) (i : Z) : Z :=
  (i mod Lx + 1) mod Lx + Lx * (i / Lx).
Definition step_y (Lx Ly : Z) (i : Z) : Z :=
  i mod Lx + Lx * ((i / Lx + 1) mod Ly).

(** A map [f] of one species' indices [0, N) acting on both species: as [f]
    on [0, N) and, shifted by [N], on [N, 2N). *)
Definition on_both (f : Z -> Z) (N : Z) (i : Z) : Z :=
  if i <? N then f i else f (i - N) + N.
End Translation.

(** Two site-coupling entries that differ in their coefficient only: the
    first carries [c1], the second [c2], on the same pair of sites. *)
Definition same_sites (c1 c2 : spec_float) (e1 e2 : list pyval) : Prop :=
  exists i j : Z,
    e1 = [PyFloat c1; PyInt i; NpInt64 j] /\
    e2 = [PyFloat c2; PyInt i; NpInt64 j].

(** [p] composed with itself [k] times, as arrays: [p[p[...[p]]]]. *)
Fixpoint array_power (p : list Z) (k : nat) : option (list Z) :=
  match k with
  | O => Some (Numpy.arange (Z.of_nat (length p)))
  | Datatypes.S k' => q ← array_power p k'; Numpy.take_indices p q
  end.

(** Two installations to run the build helper in: the package checked out
    under [/opt/QuSpin] with two Cython sources next to [setup.py], once
    without and once with Cython. *)
Module Installations.
Import Setup.

Definition script : string :=
  "/opt/QuSpin/quspin/basis/basis_1d/_constructors/setup.py"%string.

Definition pyx_files (pattern : string) : list string :=
  if String.eqb pattern
       "/opt/QuSpin/quspin/basis/basis_1d/_constructors/*.pyx"
  then ["/opt/QuSpin/quspin/basis/basis_1d/_constructors/hcp_basis_ops.pyx";
        "/opt/QuSpin/quspin/basis/basis_1d/_constructors/boson_basis_ops.pyx"
       ]%string
  else [].

Definition make (cython : bool) : Env :=
  {| script_file := script;
     realpath := fun p => p;
     glob_matches := pyx_files;
     cython_importable := cython;
     cythonize_raises := fun _ _ => None;
     numpy_include := "/usr/lib/python3/dist-packages/numpy/core/include";
     setup_raises := fun _ => None |}.

Definition without_cython : Env := make false.
Definition with_cython : Env := make true.

End Installations.

(** The same installation with Cython present, where [cythonize] and the
    distutils build end with the given exceptions. *)
Module Failures.
Import Setup.

Definition make (cythonize_exn setup_exn : option exn) : Env :=
  {| script_file := Installations.script;
     realpath := fun p => p;
     glob_matches := Installations.pyx_files;
     cython_importable := true;
     cythonize_raises := fun _ _ => cythonize_exn;
     numpy_include := "/usr/lib/python3/dist-packages/numpy/core/include";
     setup_raises := fun _ => setup_exn |}.

End Failures.

(** The command-line block from its first line, with what a run writes.
    The script has no [print] of its own: what reaches the terminal is
    written while the import of line 74 runs, by a library call, or by the
    interpreter when an exception is not caught. *)
Module Block.
Import Setup.







End Block.

(** A file name without a separator in it. *)
Definition sep_free (f : string) : bool :=
  forallb (fun c => negb (OsPath.is_sep c)) (list_ascii_of_string f).

(** The [static] list of the script: four operator strings, each with its
    site-coupling list.  Building it raises ([None]) when one of the two
    hopping comprehensions does. *)
Module Terms.

Section Model.
Variables Lx Ly : Z.
Variables J U mu : spec_float.

Definition static : option (list (string * list (list pyval))) :=
  hopping_left ← Lattice.hopping_left Lx Ly J;
  hopping_right ← Lattice.hopping_right Lx Ly J;
  Some [("+-"%string, hopping_left);
        ("-+"%string, hopping_right);
        ("n"%string, Lattice.potential Lx Ly mu);
        ("nn"%string, Lattice.interaction Lx Ly U)].
End Model.

(** The integer a list element holds, if it is an integer. *)
Definition site_index (v : pyval) : option Z :=
  match v with
  | PyInt n => Some n
  | NpInt64 n => Some n
  | PyFloat _ => None
  end.

Definition is_site (n_sites : Z) (v : pyval) : bool :=
  match site_index v with
  | Some i => (0 <=? i) && (i <? n_sites)
  | None => false
  end.

(** An entry fits an operator string when it is a float coefficient
    followed by one site index of [0, n_sites) per character of the
    string. *)
Definition entry_ok (opstr : string) (n_sites : Z) (e : list pyval) : bool :=
  match e with
  | PyFloat _ :: sites =>
      Nat.eqb (length sites) (String.length opstr)
      && forallb (is_site n_sites) sites
  | _ => false
  end.

Definition term_ok (n_sites : Z) (t : string * list (list pyval)) : bool :=
  forallb (entry_ok (fst t) n_sites) (snd t).

End Terms.

(** The spin inversion as a function on the site indices of both species. *)
Definition flip (N : Z) (i : Z) : Z := (i + N) mod (2 * N).

(* ===================================================================== *)
(** ** Facts about [os.path] and the script monad *)
(* ===================================================================== *)

Section MonadFacts.
Context {event : Type}.

Lemma bind_ret_l {A B} (a : A) (k : A -> M event B) :
  bind (ret a) k = k a.
Proof. unfold bind, ret. destruct (k a) as [t r]. reflexivity. Qed.

Lemma bind_raise {A B} (e : exn) (k : A -> M event B) :
  bind (raise e) k = raise e.
Proof. reflexivity. Qed.

Lemma bind_emit {B} (ev : event) (k : unit -> M event B) :
  bind (emit ev) k = (ev :: trace (k tt), outcome (k tt)).
Proof. unfold bind, emit, trace, outcome. destruct (k tt). reflexivity. Qed.

Lemma trace_bind_prefix {A B} (m : M event A) (k : A -> M event B) :
  exists t, trace (bind m k) = (trace m ++ t)%list.
Proof.
  destruct m as [t1 [a|e]]; unfold bind, trace; simpl.
  - destruct (k a) as [t2 r]. exists t2. reflexivity.
  - exists []. symmetry. apply app_nil_r.
Qed.

Lemma exn_eqb_refl (e : exn) : exn_eqb e e = true.
Proof. destruct e; simpl; auto using String.eqb_refl. Qed.

Lemma exn_eqb_eq (e1 e2 : exn) : exn_eqb e1 e2 = true <-> e1 = e2.
Proof.
  split; [| intros ->; apply exn_eqb_refl].
  destruct e1, e2; simpl; try congruence.
  intros H. apply String.eqb_eq in H. congruence.
Qed.

(** A handler that does nothing turns the raised class into a normal
    return and leaves everything else alone. *)
Lemma try_except_pass (body : M event unit) (cls : exn) :
  trace (try_except body cls (ret tt)) = trace body /\
  outcome (try_except body cls (ret tt)) =
    match outcome body with
    | Raise e => if exn_eqb e cls then Ret tt else Raise e
    | r => r
    end.
Proof.
  destruct body as [t [[]|e]]; unfold try_except, trace, outcome; simpl.
  - auto.
  - destruct (exn_eqb e cls); simpl; rewrite ?app_nil_r; auto.
Qed.
End MonadFacts.

Section OsPathFacts.
Import OsPath.

Lemma endswith_sep_app (a : string) (c : ascii) (b : string) :
  endswith_sep (a ++ String c b) = endswith_sep (String c b).
Proof.
  induction a as [|d a IH]; [reflexivity|].
  change (String d a ++ String c b)%string with (String d (a ++ String c b)).
  cbn [endswith_sep]. rewrite IH.
  destruct a; reflexivity.
Qed.

(** Joining a directory name that does not end in a separator with a
    relative file name puts exactly one separator between them. *)
Lemma join_relative (d f : string) :
  d <> EmptyString -> endswith_sep d = false -> startswith_sep f = false ->
  join d f = (d ++ String sep f)%string.
Proof.
  intros Hd He Hf. unfold join. rewrite Hf, He.
  destruct d; [congruence | reflexivity].
Qed.

Example dirname_script :
  dirname "/opt/QuSpin/quspin/basis/basis_1d/_constructors/setup.py"
  = "/opt/QuSpin/quspin/basis/basis_1d/_constructors".
Proof. reflexivity. Qed.

Example dirname_root : dirname "/setup.py" = "/".
Proof. reflexivity. Qed.

Example dirname_bare : dirname "setup.py" = "".
Proof. reflexivity. Qed.

Example dirname_slashes : dirname "//a///b" = "//a".
Proof. reflexivity. Qed.

Example join_dir : join "/opt/pkg" "*.pyx" = "/opt/pkg/*.pyx".
Proof. reflexivity. Qed.

Example join_root : join "/" "*.pyx" = "/*.pyx".
Proof. reflexivity. Qed.

Example join_empty : join "" "*.pyx" = "*.pyx".
Proof. reflexivity. Qed.
End OsPathFacts.

(* ===================================================================== *)
(** ** [setup.py]: the configuration and the command line *)
(* ===================================================================== *)

Section SetupFacts.
Import Setup.
Local Open Scope string_scope.

Variable env : Env.

Lemma configuration_eq (parent : string) (top : option string) :
  configuration env parent top =
    ([EvConfiguration "_constructors" parent top],
     Ret {| package_name := "_constructors"; parent_name := parent;
            top_path := top;
            ext_modules := [registered env "hcp_basis_ops";
                            registered env "boson_basis_ops"] |}).
Proof. reflexivity. Qed.

Lemma cython_files_eq :
  cython_files env =
    let pat := OsPath.join (package_dir env) "*.pyx" in
    if cython_importable env
    then (emit (EvGlob pat) ;;; cythonize env (glob_matches env pat) "c++")
    else ([EvGlob pat], Ret tt).
Proof.
  unfold cython_files, import_cythonize, glob, cythonize.
  destruct (cython_importable env); [|reflexivity].
  cbv [bind ret emit raise try_except exn_eqb app of_raises].
  destruct (cythonize_raises env _ _); reflexivity.
Qed.

Lemma argv_get_first (prog instr : string) (rest : list string) :
  argv_get (prog :: instr :: rest) 1 = ret instr.
Proof. reflexivity. Qed.

Lemma argv_get_missing (argv : list string) :
  (length argv <= 1)%nat -> argv_get argv 1 = raise IndexError.
Proof.
  intros H. unfold argv_get.
  destruct argv as [|a [|b r]]; simpl in *; [reflexivity..|lia].
Qed.

(** Whatever the length-at-most-one argument vector is, the block ends
    normally and calls nothing. *)
Lemma main_short_argv (argv : list string) :
  (length argv <= 1)%nat -> main env argv = ([], Ret tt).
Proof.
  intros H. unfold main. rewrite (argv_get_missing argv H). reflexivity.
Qed.

Lemma main_build_templates (prog : string) (rest : list string) :
  main env (prog :: "build_templates" :: rest)
  = try_except (cython_files env) IndexError (ret tt).
Proof. unfold main. rewrite argv_get_first, bind_ret_l. reflexivity. Qed.

Lemma main_other (prog instr : string) (rest : list string) :
  instr <> "build_templates" ->
  main env (prog :: instr :: rest)
  = try_except (config <- configuration env "" (Some "") ;; setup env config)
               IndexError (ret tt).
Proof.
  intros H. unfold main. rewrite argv_get_first, bind_ret_l.
  apply String.eqb_neq in H. rewrite H. reflexivity.
Qed.
End SetupFacts.

Section SetupClaims.
Import Setup.
Local Open Scope string_scope.

Lemma cython_files_trace (env : Env) :
  trace (cython_files env) =
    let pat := OsPath.join (package_dir env) "*.pyx" in
    EvGlob pat ::
      (if cython_importable env
       then [EvCythonize (glob_matches env pat) "c++"]
       else []).
Proof.
  rewrite cython_files_eq. cbv zeta.
  destruct (cython_importable env); [|reflexivity].
  unfold cythonize. rewrite !bind_emit.
  destruct (cythonize_raises env _ _); reflexivity.
Qed.

(** C1.  [configuration] returns a configuration that holds exactly two
    extension targets, named 'hcp_basis_ops' and 'boson_basis_ops' in that
    order; each has as its one source the file [<name>.cpp] joined to the
    package directory, numpy's include directory as its only include
    directory and '-fno-strict-aliasing' as its only extra compiler flag;
    none of the four names of the commented-out block is among the
    registered names. *)
Theorem configuration_two_targets
    (env : Env) (parent : string) (top : option string) :
  exists config,
    outcome (configuration env parent top) = Ret config /\
    map ext_name (ext_modules config)
      = ["hcp_basis_ops"; "boson_basis_ops"] /\
    Forall (fun e =>
              sources e
                = OsPath.join (package_dir env) (ext_name e ++ ".cpp") /\
              include_dirs e = [numpy_include env] /\
              extra_compile_args e = ["-fno-strict-aliasing"])
           (ext_modules config) /\
    Forall (fun name => ~ In name (map ext_name (ext_modules config)))
           commented_out_targets.
Proof.
  rewrite configuration_eq. eexists. split; [reflexivity|].
  cbn [ext_modules map registered ext_name]. split; [reflexivity|]. split.
  - repeat constructor.
  - unfold commented_out_targets.
    repeat (constructor; [cbn [In]; intros [H|[H|[]]]; discriminate H|]).
    constructor.
Qed.




(** C3.  When Cython cannot be imported, [cython_files] returns normally
    (with no value), its only library call is the glob of the [*.pyx]
    pattern in the package directory, and no call it makes writes a
    file. *)
Theorem cython_files_without_cython (env : Env) :
  cython_importable env = false ->
  outcome (cython_files env) = Ret tt /\
  trace (cython_files env)
    = [EvGlob (OsPath.join (package_dir env) "*.pyx")] /\
  Forall (fun ev => writes_files ev = false) (trace (cython_files env)).
Proof.
  intros H. rewrite cython_files_eq. cbv zeta. rewrite H.
  repeat split. repeat constructor.
Qed.

Lemma cython_files_without_cython_witness :
  cython_importable Installations.without_cython = false /\
  outcome (cython_files Installations.without_cython) = Ret tt /\
  trace (cython_files Installations.without_cython)
    = [EvGlob "/opt/QuSpin/quspin/basis/basis_1d/_constructors/*.pyx"] /\
  Forall (fun ev => writes_files ev = false)
         (trace (cython_files Installations.without_cython)).
Proof.
  split; [reflexivity|].
  apply (cython_files_without_cython Installations.without_cython).
  reflexivity.
Defined.

(** C4.  With a first command-line argument [instr]: if it is
    "build_templates" the block is exactly the call of [cython_files]
    under the [except IndexError] clause, so its library calls are those
    of [cython_files] and neither a Configuration is constructed nor
    [setup] called; for any other [instr] the block constructs the
    '_constructors' configuration (parent package '', top path '') and
    then calls [setup] with it, and makes no other library call. *)
Theorem main_dispatch (env : Env) (prog instr : string) (rest : list string) :
  (instr = "build_templates" ->
     main env (prog :: instr :: rest)
       = try_except (cython_files env) IndexError (ret tt) /\
     trace (main env (prog :: instr :: rest)) = trace (cython_files env) /\
     Forall (fun ev => is_configuration ev = false /\ is_setup ev = false)
            (trace (main env (prog :: instr :: rest)))) /\
  (instr <> "build_templates" ->
     exists config,
       outcome (configuration env "" (Some "")) = Ret config /\
       trace (main env (prog :: instr :: rest))
         = [EvConfiguration "_constructors" "" (Some ""); EvSetup config]).
Proof.
  split.
  - intros ->. rewrite main_build_templates.
    destruct (try_except_pass (cython_files env) IndexError) as [Ht _].
    split; [reflexivity|]. split; [exact Ht|].
    rewrite Ht, cython_files_trace. cbv zeta.
    destruct (cython_importable env); repeat constructor.
  - intros Hne. rewrite (main_other env prog instr rest Hne).
    rewrite configuration_eq. eexists. split; [reflexivity|].
    match goal with
    | |- trace (try_except ?b _ _) = _ =>
        destruct (try_except_pass b IndexError) as [Ht _]; rewrite Ht
    end.
    unfold setup, bind, emit, trace. cbn [app].
    destruct (of_raises _) as [t r] eqn:E.
    unfold of_raises in E.
    destruct (setup_raises env _); inversion E; reflexivity.
Qed.

Lemma main_dispatch_witness :
  (trace (main Installations.with_cython
               ["setup.py"; "build_templates"])
     = trace (cython_files Installations.with_cython)) /\
  (exists config,
      outcome (configuration Installations.with_cython "" (Some ""))
        = Ret config /\
      trace (main Installations.with_cython ["setup.py"; "build_ext"])
        = [EvConfiguration "_constructors" "" (Some ""); EvSetup config]).
Proof.
  split.
  - apply (proj1 (main_dispatch Installations.with_cython
                    "setup.py" "build_templates" []) eq_refl).
  - apply (proj2 (main_dispatch Installations.with_cython
                    "setup.py" "build_ext" [])).
    discriminate.
Defined.

(** C7.  When Cython can be imported, [cython_files] globs the [*.pyx]
    pattern in the directory of the script and then calls [cythonize]
    exactly once, on the list the glob returned and with language "c++";
    when Cython cannot be imported it never calls [cythonize]. *)
Theorem cython_files_transpiles_once (env : Env) :
  (cython_importable env = true ->
     trace (cython_files env)
       = [EvGlob (OsPath.join (package_dir env) "*.pyx");
          EvCythonize
            (glob_matches env (OsPath.join (package_dir env) "*.pyx"))
            "c++"] /\
     length (List.filter is_cythonize (trace (cython_files env))) = 1%nat) /\
  (cython_importable env = false ->
     List.filter is_cythonize (trace (cython_files env)) = []).
Proof.
  rewrite cython_files_trace. cbv zeta.
  split; intros ->; repeat split.
Qed.

Lemma cython_files_transpiles_once_witness :
  (trace (cython_files Installations.with_cython)
     = [EvGlob "/opt/QuSpin/quspin/basis/basis_1d/_constructors/*.pyx";
        EvCythonize
          ["/opt/QuSpin/quspin/basis/basis_1d/_constructors/hcp_basis_ops.pyx";
           "/opt/QuSpin/quspin/basis/basis_1d/_constructors/boson_basis_ops.pyx"]
          "c++"] /\
   length (List.filter is_cythonize
                  (trace (cython_files Installations.with_cython))) = 1%nat)
  /\ List.filter is_cythonize
            (trace (cython_files Installations.without_cython)) = [].
Proof.
  split.
  - apply (proj1 (cython_files_transpiles_once Installations.with_cython)
             eq_refl).
  - apply (proj2 (cython_files_transpiles_once
                    Installations.without_cython) eq_refl).
Defined.
End SetupClaims.

(* ===================================================================== *)
(** ** Facts about the numpy operations *)
(* ===================================================================== *)

Section NumpyFacts.
Import Numpy.

Lemma wrap64_small (z : Z) : - 2^63 <= z < 2^63 -> wrap64 z = z.
Proof. intros H. unfold wrap64. rewrite Z.mod_small; lia. Qed.

Lemma wrap64_range (z : Z) : - 2^63 <= wrap64 z < 2^63.
Proof.
  unfold wrap64.
  pose proof (Z.mod_pos_bound (z + 2^63) (2^64) ltac:(lia)). lia.
Qed.

Lemma arange_length (n : Z) : length (arange n) = Z.to_nat n.
Proof. unfold arange. rewrite length_map, length_seq. reflexivity. Qed.

Lemma range_arange (n : Z) : range n = arange n.
Proof. reflexivity. Qed.

Lemma In_arange (n k : Z) : In k (arange n) <-> 0 <= k < n.
Proof.
  unfold arange. rewrite in_map_iff. split.
  - intros (j & <- & Hj). apply in_seq in Hj. lia.
  - intros H. exists (Z.to_nat k). split; [lia|]. apply in_seq. lia.
Qed.

Lemma NoDup_arange (n : Z) : List.NoDup (arange n).
Proof.
  unfold arange. apply Injective_map_NoDup.
  - intros a b. apply Nat2Z.inj.
  - apply seq_NoDup.
Qed.

Lemma arange_lookup (n i : Z) :
  0 <= i < n -> arange n !! Z.to_nat i = Some i.
Proof.
  intros H. unfold arange.
  rewrite list_lookup_fmap, lookup_seq_lt by lia.
  simpl. f_equal. lia.
Qed.

Lemma zip_with_map_map {A B C D} (f : B -> C -> D) (g : A -> B)
      (h : A -> C) (l : list A) :
  zip_with f (map g l) (map h l) = map (fun v => f (g v) (h v)) l.
Proof. induction l as [|a l IH]; simpl; [|rewrite IH]; reflexivity. Qed.

(** Inside its range, [getitem] is the plain list lookup. *)
Lemma getitem_lookup (a : list Z) (i : Z) :
  0 <= i < Z.of_nat (length a) -> getitem a i = a !! Z.to_nat i.
Proof.
  intros H. unfold getitem.
  destruct (Z.ltb_spec i 0); [lia|].
  destruct (Z.leb_spec 0 i); [|lia].
  destruct (Z.ltb_spec i (Z.of_nat (length a))); [reflexivity|lia].
Qed.

Lemma getitem_out_of_range (a : list Z) (i : Z) :
  Z.of_nat (length a) <= i -> getitem a i = None.
Proof.
  intros H. unfold getitem.
  destruct (Z.ltb_spec i 0); [lia|].
  destruct (Z.ltb_spec i (Z.of_nat (length a))); [lia|].
  rewrite andb_false_r. reflexivity.
Qed.
End NumpyFacts.

(* ===================================================================== *)
(** ** The translations for any lattice size *)
(* ===================================================================== *)

Section TranslationFacts.
Import Numpy Translation.

Variables Lx Ly : Z.
Hypothesis Lx_pos : 0 < Lx.
Hypothesis Ly_pos : 0 < Ly.

Let N := Lx * Ly.

Lemma row_bound (i : Z) : 0 <= i < N -> 0 <= i / Lx < Ly.
Proof.
  intros H. split.
  - apply Z.div_pos; lia.
  - apply Z.div_lt_upper_bound; lia.
Qed.

Lemma step_x_div (i : Z) : step_x Lx i / Lx = i / Lx.
Proof.
  unfold step_x. symmetry.
  apply (Z.div_unique _ _ _ ((i mod Lx + 1) mod Lx)).
  - left. apply Z.mod_pos_bound; lia.
  - lia.
Qed.

Lemma step_x_mod (i : Z) : step_x Lx i mod Lx = (i mod Lx + 1) mod Lx.
Proof.
  unfold step_x. symmetry.
  apply (Z.mod_unique _ _ (i / Lx)).
  - left. apply Z.mod_pos_bound; lia.
  - lia.
Qed.

Lemma step_y_div (i : Z) : step_y Lx Ly i / Lx = (i / Lx + 1) mod Ly.
Proof.
  unfold step_y. symmetry.
  apply (Z.div_unique _ _ _ (i mod Lx)).
  - left. apply Z.mod_pos_bound; lia.
  - lia.
Qed.

Lemma step_y_mod (i : Z) : step_y Lx Ly i mod Lx = i mod Lx.
Proof.
  unfold step_y. symmetry.
  apply (Z.mod_unique _ _ ((i / Lx + 1) mod Ly)).
  - left. apply Z.mod_pos_bound; lia.
  - lia.
Qed.

(** Adding one modulo [L] is injective on [0, L). *)
Lemma succ_mod_inj (L a b : Z) :
  0 <= a < L -> 0 <= b < L -> (a + 1) mod L = (b + 1) mod L -> a = b.
Proof.
  intros Ha Hb.
  destruct (Z.eq_dec (a + 1) L) as [Ea|Ea];
    destruct (Z.eq_dec (b + 1) L) as [Eb|Eb].
  - lia.
  - rewrite Ea, Z.mod_same, (Z.mod_small (b + 1)) by lia. lia.
  - rewrite Eb, Z.mod_same, (Z.mod_small (a + 1)) by lia. lia.
  - rewrite !Z.mod_small by lia. lia.
Qed.

Lemma step_x_range (i : Z) : 0 <= i < N -> 0 <= step_x Lx i < N.
Proof.
  intros H. pose proof (row_bound i H) as Hr.
  pose proof (Z.mod_pos_bound (i mod Lx + 1) Lx Lx_pos).
  unfold step_x, N in *. nia.
Qed.

Lemma step_y_range (i : Z) : 0 <= i < N -> 0 <= step_y Lx Ly i < N.
Proof.
  intros H.
  pose proof (Z.mod_pos_bound i Lx Lx_pos).
  pose proof (Z.mod_pos_bound (i / Lx + 1) Ly Ly_pos).
  unfold step_y, N in *. nia.
Qed.

Lemma step_x_inj (i j : Z) :
  0 <= i < N -> 0 <= j < N -> step_x Lx i = step_x Lx j -> i = j.
Proof.
  intros Hi Hj E.
  assert (Ed : i / Lx = j / Lx)
    by (rewrite <- (step_x_div i), <- (step_x_div j), E; reflexivity).
  assert (Em : i mod Lx = j mod Lx).
  { apply (succ_mod_inj Lx); try (apply Z.mod_pos_bound; lia).
    rewrite <- !step_x_mod, E. reflexivity. }
  rewrite (Z.div_mod i Lx), (Z.div_mod j Lx) by lia. congruence.
Qed.

Lemma step_y_inj (i j : Z) :
  0 <= i < N -> 0 <= j < N -> step_y Lx Ly i = step_y Lx Ly j -> i = j.
Proof.
  intros Hi Hj E.
  assert (Em : i mod Lx = j mod Lx)
    by (rewrite <- (step_y_mod i), <- (step_y_mod j), E; reflexivity).
  assert (Ed : i / Lx = j / Lx).
  { apply (succ_mod_inj Ly); try (apply row_bound; assumption).
    rewrite <- !step_y_div, E. reflexivity. }
  rewrite (Z.div_mod i Lx), (Z.div_mod j Lx) by lia. congruence.
Qed.
End TranslationFacts.

(* ===================================================================== *)
(** ** The arrays of the script for any lattice size *)
(* ===================================================================== *)

Section LatticeFacts.
Import Numpy Translation.

Variables Lx Ly : Z.
Hypothesis Lx_pos : 0 < Lx.
Hypothesis Ly_pos : 0 < Ly.
(** all [2 * Lx * Ly] indices are [int64] values *)
Hypothesis fits : 2 * (Lx * Ly) <= 2^63.

Let N := Lx * Ly.

Lemma Lx_nonzero : (Lx =? 0) = false.
Proof. apply Z.eqb_neq. lia. Qed.

Lemma Ly_nonzero : (Ly =? 0) = false.
Proof. apply Z.eqb_neq. lia. Qed.

Lemma Lx_le_N : Lx <= N.
Proof. unfold N. nia. Qed.

(** No element-wise operation of [t_x] wraps around. *)
Lemma t_x_spec : Lattice.t_x Lx Ly = map (step_x Lx) (arange N).
Proof.
  unfold Lattice.t_x, Lattice.x, Lattice.y, Lattice.N_2d, add, mod_scalar,
    add_scalar, scalar_mul, floordiv_scalar.
  rewrite !map_map, zip_with_map_map. fold N.
  apply map_ext_in. intros i Hi. apply In_arange in Hi.
  unfold remainder, floor_divide, step_x. rewrite Lx_nonzero.
  pose proof Lx_le_N as HL.
  pose proof (Z.mod_pos_bound i Lx Lx_pos) as Hm.
  pose proof (row_bound Lx Ly Lx_pos i Hi) as Hq.
  pose proof (Z.mul_div_le i Lx Lx_pos) as Hle.
  pose proof (Z.mod_pos_bound (i mod Lx + 1) Lx Lx_pos) as Hm1.
  unfold N in *.
  rewrite (wrap64_small (i mod Lx)) by lia.
  rewrite (wrap64_small (i mod Lx + 1)) by lia.
  rewrite (wrap64_small ((i mod Lx + 1) mod Lx)) by lia.
  rewrite (wrap64_small (i / Lx)) by lia.
  rewrite (wrap64_small (Lx * (i / Lx))) by lia.
  apply wrap64_small. lia.
Qed.

Lemma t_y_spec : Lattice.t_y Lx Ly = map (step_y Lx Ly) (arange N).
Proof.
  unfold Lattice.t_y, Lattice.x, Lattice.y, Lattice.N_2d, add, mod_scalar,
    add_scalar, scalar_mul, floordiv_scalar.
  rewrite !map_map, zip_with_map_map. fold N.
  apply map_ext_in. intros i Hi. apply In_arange in Hi.
  pose proof (step_y_range Lx Ly Lx_pos Ly_pos i Hi) as Hr.
  unfold remainder, floor_divide, step_y in *.
  rewrite Lx_nonzero, Ly_nonzero.
  pose proof Lx_le_N as HL.
  pose proof (Z.mod_pos_bound i Lx Lx_pos) as Hm.
  pose proof (row_bound Lx Ly Lx_pos i Hi) as Hq.
  pose proof (Z.mod_pos_bound (i / Lx + 1) Ly Ly_pos) as Hm1.
  assert (Hp : 0 <= Lx * ((i / Lx + 1) mod Ly) < Lx * Ly) by nia.
  assert (HLy : Ly <= Lx * Ly) by nia.
  unfold N in *.
  rewrite (wrap64_small (i mod Lx)) by lia.
  rewrite (wrap64_small (i / Lx)) by lia.
  rewrite (wrap64_small (i / Lx + 1)) by lia.
  rewrite (wrap64_small ((i / Lx + 1) mod Ly)) by lia.
  rewrite (wrap64_small (Lx * ((i / Lx + 1) mod Ly))) by lia.
  apply wrap64_small. lia.
Qed.
End LatticeFacts.

Section Doubling.
Import Numpy.

(** One species' permutation [f] of [0, N), repeated on the second
    species' indices [N, 2N), is a permutation of [0, 2N). *)
Variable f : Z -> Z.
Variable N : Z.
Hypothesis fits : 2 * N <= 2^63.
Hypothesis f_range : forall i, 0 <= i < N -> 0 <= f i < N.
Hypothesis f_inj :
  forall i j, 0 <= i < N -> 0 <= j < N -> f i = f j -> i = j.

Lemma add_scalar_map :
  add_scalar (map f (arange N)) N = map (fun i => f i + N) (arange N).
Proof.
  unfold add_scalar. rewrite map_map. apply map_ext_in.
  intros i Hi. apply In_arange in Hi.
  pose proof (f_range i Hi). apply wrap64_small. lia.
Qed.

Lemma In_doubled (v : Z) :
  In v (hstack (map f (arange N)) (add_scalar (map f (arange N)) N)) ->
  0 <= v < 2 * N.
Proof.
  rewrite add_scalar_map. unfold hstack. rewrite in_app_iff, !in_map_iff.
  intros [(i & <- & Hi)|(i & <- & Hi)];
    apply In_arange in Hi; pose proof (f_range i Hi); lia.
Qed.

Lemma NoDup_doubled :
  List.NoDup (hstack (map f (arange N)) (add_scalar (map f (arange N)) N)).
Proof.
  rewrite add_scalar_map. unfold hstack. apply List.NoDup_app.
  - apply Injective_map_NoDup_in; [|apply NoDup_arange].
    intros i j Hi Hj. apply f_inj; apply In_arange; assumption.
  - apply Injective_map_NoDup_in; [|apply NoDup_arange].
    intros i j Hi Hj E. apply f_inj; [apply In_arange..|lia]; assumption.
  - intros v H1 H2. apply in_map_iff in H1, H2.
    destruct H1 as (i & <- & Hi), H2 as (j & E & Hj).
    apply In_arange in Hi, Hj.
    pose proof (f_range i Hi). pose proof (f_range j Hj). lia.
Qed.

Lemma length_doubled :
  length (hstack (map f (arange N)) (add_scalar (map f (arange N)) N))
  = Z.to_nat (2 * N).
Proof.
  unfold hstack, add_scalar.
  rewrite length_app, !length_map, arange_length. lia.
Qed.

Lemma doubled_permutation :
  Permutation
    (hstack (map f (arange N)) (add_scalar (map f (arange N)) N))
    (arange (2 * N)).
Proof.
  apply NoDup_Permutation_bis.
  - apply NoDup_doubled.
  - rewrite length_doubled, arange_length. lia.
  - intros v Hv. apply In_arange, In_doubled, Hv.
Qed.
End Doubling.

Section LatticePermutations.
Import Numpy Translation.

Variables Lx Ly : Z.
Hypothesis Lx_pos : 0 < Lx.
Hypothesis Ly_pos : 0 < Ly.
Hypothesis fits : 2 * (Lx * Ly) <= 2^63.

(** For every lattice whose indices fit in [int64], [T_x] and [T_y] are
    permutations of [0, 2 * Lx * Ly). *)
Lemma T_x_permutation :
  Permutation (Lattice.T_x Lx Ly) (arange (2 * (Lx * Ly))).
Proof.
  unfold Lattice.T_x, Lattice.N_2d.
  rewrite (t_x_spec Lx Ly Lx_pos Ly_pos fits).
  apply doubled_permutation; [assumption|..].
  - apply step_x_range; assumption.
  - apply step_x_inj; assumption.
Qed.

Lemma T_y_permutation :
  Permutation (Lattice.T_y Lx Ly) (arange (2 * (Lx * Ly))).
Proof.
  unfold Lattice.T_y, Lattice.N_2d.
  rewrite (t_y_spec Lx Ly Lx_pos Ly_pos fits).
  apply doubled_permutation; [assumption|..].
  - apply step_y_range; assumption.
  - apply step_y_inj; assumption.
Qed.

(** A permutation of [0, n) holds every index of [0, n) exactly once. *)
Lemma permutation_count (l : list Z) (n k : Z) :
  Permutation l (arange n) -> 0 <= k < n ->
  count_occ Z.eq_dec l k = 1%nat.
Proof.
  intros HP Hk.
  apply (proj1 (NoDup_count_occ' Z.eq_dec l)).
  - apply (Permutation_NoDup (Permutation_sym HP)), NoDup_arange.
  - apply (Permutation_in _ (Permutation_sym HP)), In_arange, Hk.
Qed.
End LatticePermutations.

(* ===================================================================== *)
(** ** Spin inversion *)
(* ===================================================================== *)

Section SpinInversion.
Import Numpy.

Lemma roll_unfold (a : list Z) (shift : Z) :
  roll a shift =
    (drop (length a - Z.to_nat (shift mod Z.of_nat (length a))) a ++
     take (length a - Z.to_nat (shift mod Z.of_nat (length a))) a)%list.
Proof. destruct a; reflexivity. Qed.

(** Rolling [0, 1, ..., 2N-1] by [N] swaps the two halves. *)
Lemma roll_half (N : Z) :
  0 < N ->
  roll (arange (2 * N)) N
  = (drop (Z.to_nat N) (arange (2 * N)) ++
     take (Z.to_nat N) (arange (2 * N)))%list.
Proof.
  intros HN. rewrite roll_unfold, arange_length.
  rewrite Z2Nat.id, Z.mod_small by lia.
  replace (Z.to_nat (2 * N) - Z.to_nat N)%nat with (Z.to_nat N) by lia.
  reflexivity.
Qed.

Lemma half_turn (N i : Z) :
  0 < N -> 0 <= i < 2 * N ->
  (i + N) mod (2 * N) = if i <? N then i + N else i - N.
Proof.
  intros HN Hi. destruct (Z.ltb_spec i N).
  - apply Z.mod_small. lia.
  - symmetry. apply (Z.mod_unique _ _ 1); lia.
Qed.

Lemma roll_half_lookup (N i : Z) :
  0 < N -> 0 <= i < 2 * N ->
  roll (arange (2 * N)) N !! Z.to_nat i = Some ((i + N) mod (2 * N)).
Proof.
  intros HN Hi. rewrite roll_half, half_turn by assumption.
  destruct (Z.ltb_spec i N).
  - rewrite lookup_app_l
      by (rewrite length_drop, arange_length; lia).
    rewrite lookup_drop.
    replace (Z.to_nat N + Z.to_nat i)%nat with (Z.to_nat (i + N)) by lia.
    apply arange_lookup. lia.
  - rewrite lookup_app_r
      by (rewrite length_drop, arange_length; lia).
    rewrite length_drop, arange_length.
    replace (Z.to_nat i - (Z.to_nat (2 * N) - Z.to_nat N))%nat
      with (Z.to_nat (i - N)) by lia.
    rewrite lookup_take_lt by lia.
    apply arange_lookup. lia.
Qed.

Lemma roll_length (a : list Z) (shift : Z) : length (roll a shift) = length a.
Proof.
  rewrite roll_unfold, length_app, length_drop, length_take. lia.
Qed.

Variables Lx Ly : Z.
Hypothesis Lx_pos : 0 < Lx.
Hypothesis Ly_pos : 0 < Ly.

Lemma S_length : length (Lattice.S Lx Ly) = Z.to_nat (2 * (Lx * Ly)).
Proof. unfold Lattice.S. rewrite roll_length. apply arange_length. Qed.

(** On every lattice [S] sends index [i] to [(i + N) mod 2N]. *)
Lemma S_getitem (i : Z) :
  0 <= i < 2 * (Lx * Ly) ->
  getitem (Lattice.S Lx Ly) i = Some ((i + Lx * Ly) mod (2 * (Lx * Ly))).
Proof.
  intros Hi. rewrite getitem_lookup by (rewrite S_length; lia).
  apply roll_half_lookup; [nia|assumption].
Qed.

Lemma S_involution (i : Z) :
  0 <= i < 2 * (Lx * Ly) ->
  (v ← getitem (Lattice.S Lx Ly) i; getitem (Lattice.S Lx Ly) v) = Some i.
Proof.
  intros Hi. assert (HN : 0 < Lx * Ly) by nia.
  rewrite S_getitem by assumption. cbn [mbind option_bind].
  pose proof (Z.mod_pos_bound (i + Lx * Ly) (2 * (Lx * Ly)) ltac:(lia)).
  rewrite S_getitem by assumption. f_equal.
  rewrite (half_turn _ i HN Hi).
  destruct (Z.ltb_spec i (Lx * Ly)).
  - rewrite half_turn by lia.
    destruct (Z.ltb_spec (i + Lx * Ly) (Lx * Ly)); lia.
  - rewrite half_turn by lia.
    destruct (Z.ltb_spec (i - Lx * Ly) (Lx * Ly)); lia.
Qed.
End SpinInversion.

(* ===================================================================== *)
(** ** Site-coupling lists *)
(* ===================================================================== *)

Section CouplingLists.
Import Numpy.

Lemma range_length (n : Z) : length (range n) = Z.to_nat n.
Proof. apply arange_length. Qed.

Lemma range_lookup (n i : Z) :
  0 <= i < n -> range n !! Z.to_nat i = Some i.
Proof. apply arange_lookup. Qed.

(** The comprehension succeeds when every index is inside the array, and
    then has one entry per index. *)
Lemma hops_defined (c : spec_float) (T : list Z) (n : Z) :
  n <= Z.of_nat (length T) ->
  exists l, Lattice.hops c T n = Some l /\ length l = Z.to_nat n.
Proof.
  intros Hn. unfold Lattice.hops.
  assert (H : Forall (fun i => 0 <= i < Z.of_nat (length T)) (range n)).
  { apply List.Forall_forall. intros i Hi.
    apply In_arange in Hi. lia. }
  rewrite <- (range_length n). revert H.
  generalize (range n) as idx. intros idx.
  induction idx as [|i idx IH]; intros H.
  - exists []. split; reflexivity.
  - inversion H as [|? ? Hi Hidx]; subst.
    destruct (IH Hidx) as (l & El & Hl).
    destruct (lookup_lt_is_Some_2 T (Z.to_nat i) ltac:(lia)) as [v Ev].
    exists ([PyFloat c; PyInt i; NpInt64 v] :: l).
    cbn [mapM]. rewrite getitem_lookup by assumption.
    rewrite Ev. cbn [mbind option_bind]. rewrite El.
    split; [reflexivity|]. cbn [length]. congruence.
Qed.

(** Changing the coefficient changes nothing else. *)
Lemma hops_same_sites (c1 c2 : spec_float) (T : list Z) (n : Z)
      (l : list (list pyval)) :
  Lattice.hops c1 T n = Some l ->
  exists r, Lattice.hops c2 T n = Some r /\
            Forall2 (same_sites c1 c2) l r.
Proof.
  unfold Lattice.hops. generalize (range n) as idx. intros idx. revert l.
  induction idx as [|i idx IH]; intros l E.
  - inversion E. exists []. split; [reflexivity|constructor].
  - cbn [mapM] in *. destruct (getitem T i) as [v|]; [|discriminate].
    cbn [mbind option_bind] in *.
    destruct (mapM _ idx) as [l'|] eqn:El in E; [|discriminate].
    destruct (IH l' El) as (r' & Er & HF).
    cbn in E. inversion E; subst l.
    exists ([PyFloat c2; PyInt i; NpInt64 v] :: r').
    rewrite Er. split; [reflexivity|].
    constructor; [|assumption]. exists i, v. split; reflexivity.
Qed.

Variables Lx Ly : Z.
Variables J U : spec_float.
Hypothesis Lx_pos : 0 < Lx.
Hypothesis Ly_pos : 0 < Ly.

Let N := Lx * Ly.

Lemma T_x_length : length (Lattice.T_x Lx Ly) = Z.to_nat (2 * N).
Proof.
  unfold Lattice.T_x, Lattice.t_x, Lattice.x, Lattice.y, Lattice.N_2d,
    hstack, add, add_scalar, mod_scalar, scalar_mul, floordiv_scalar.
  rewrite length_app, !length_map, length_zip_with, !length_map,
    arange_length.
  unfold N. lia.
Qed.

Lemma T_y_length : length (Lattice.T_y Lx Ly) = Z.to_nat (2 * N).
Proof.
  unfold Lattice.T_y, Lattice.t_y, Lattice.x, Lattice.y, Lattice.N_2d,
    hstack, add, add_scalar, mod_scalar, scalar_mul, floordiv_scalar.
  rewrite length_app, !length_map, length_zip_with, !length_map,
    arange_length.
  unfold N. lia.
Qed.

(** On every lattice both hopping lists are built without an index error:
    each is the [2 * N] entries for [T_x] followed by the [2 * N] entries
    for [T_y], and the two lists agree entry by entry on the two sites
    while the coefficients are [-J] and [+J]. *)
Lemma hopping_lists :
  exists lx ly rx ry,
    Lattice.hops (float_neg J) (Lattice.T_x Lx Ly) (2 * N) = Some lx /\
    Lattice.hops (float_neg J) (Lattice.T_y Lx Ly) (2 * N) = Some ly /\
    Lattice.hops (float_pos J) (Lattice.T_x Lx Ly) (2 * N) = Some rx /\
    Lattice.hops (float_pos J) (Lattice.T_y Lx Ly) (2 * N) = Some ry /\
    Lattice.hopping_left Lx Ly J = Some (lx ++ ly)%list /\
    Lattice.hopping_right Lx Ly J = Some (rx ++ ry)%list /\
    length lx = Z.to_nat (2 * N) /\ length ly = Z.to_nat (2 * N) /\
    Forall2 (same_sites (float_neg J) (float_pos J))
            (lx ++ ly)%list (rx ++ ry)%list.
Proof.
  assert (HN : 0 < N) by (unfold N; nia).
  destruct (hops_defined (float_neg J) (Lattice.T_x Lx Ly) (2 * N))
    as (lx & Elx & Hlx); [rewrite T_x_length; lia|].
  destruct (hops_defined (float_neg J) (Lattice.T_y Lx Ly) (2 * N))
    as (ly & Ely & Hly); [rewrite T_y_length; lia|].
  destruct (hops_same_sites _ (float_pos J) _ _ _ Elx) as (rx & Erx & Fx).
  destruct (hops_same_sites _ (float_pos J) _ _ _ Ely) as (ry & Ery & Fy).
  exists lx, ly, rx, ry.
  unfold Lattice.hopping_left, Lattice.hopping_right, Lattice.N_2d.
  fold N. rewrite Elx, Ely, Erx, Ery.
  repeat split; try assumption.
  apply Forall2_app; assumption.
Qed.

Lemma interaction_length :
  length (Lattice.interaction Lx Ly U) = Z.to_nat N.
Proof.
  unfold Lattice.interaction. rewrite length_map. apply range_length.
Qed.

Lemma interaction_lookup (i : Z) :
  0 <= i < N ->
  Lattice.interaction Lx Ly U !! Z.to_nat i
  = Some [PyFloat U; PyInt i; PyInt (i + N)].
Proof.
  intros Hi. unfold Lattice.interaction.
  rewrite list_lookup_fmap, range_lookup by exact Hi. reflexivity.
Qed.
End CouplingLists.

(* ===================================================================== *)
(** ** Repeated translations *)
(* ===================================================================== *)

Section ArrayPowers.
Import Numpy Translation.

Lemma seq_shift_start (n s len : nat) :
  seq (s + n) len = map (fun k => (k + n)%nat) (seq s len).
Proof.
  revert s. induction len as [|len IH]; intros s; [reflexivity|].
  cbn [seq map]. f_equal. apply (IH (Datatypes.S s)).
Qed.

Lemma arange_double (N : Z) :
  0 <= N ->
  arange (2 * N) = (arange N ++ map (fun i => i + N) (arange N))%list.
Proof.
  intros HN. unfold arange.
  replace (Z.to_nat (2 * N)) with (Z.to_nat N + Z.to_nat N)%nat by lia.
  rewrite seq_app, map_app. f_equal.
  rewrite (seq_shift_start (Z.to_nat N) 0), !map_map.
  apply map_ext. intros k. lia.
Qed.

Variable F : Z -> Z.
Variable n : Z.
Hypothesis n_nonneg : 0 <= n.
Hypothesis F_range : forall i, 0 <= i < n -> 0 <= F i < n.

Lemma iter_range (k : nat) (i : Z) :
  0 <= i < n -> 0 <= Nat.iter k F i < n.
Proof.
  intros Hi. induction k as [|k IH]; [exact Hi|]. apply F_range, IH.
Qed.

(** Indexing the array of [F] with in-range indices applies [F] to them. *)
Lemma take_indices_map (q : list Z) :
  List.Forall (fun v => 0 <= v < n) q ->
  take_indices (map F (arange n)) q = Some (map F q).
Proof.
  unfold take_indices. induction 1 as [|v q Hv _ IH]; [reflexivity|].
  cbn [mapM map]. rewrite IH.
  rewrite getitem_lookup by (rewrite length_map, arange_length; lia).
  rewrite list_lookup_fmap, arange_lookup by exact Hv. reflexivity.
Qed.

(** The [k]-th power of the array of [F] is the array of the [k]-th iterate
    of [F]. *)
Lemma array_power_map (k : nat) :
  array_power (map F (arange n)) k = Some (map (Nat.iter k F) (arange n)).
Proof.
  induction k as [|k IH].
  - cbn [array_power Nat.iter nat_rect]. rewrite length_map, arange_length.
    rewrite Z2Nat.id by exact n_nonneg. rewrite map_id. reflexivity.
  - cbn [array_power]. rewrite IH. cbn [mbind option_bind].
    rewrite take_indices_map.
    + rewrite map_map. reflexivity.
    + apply List.Forall_forall. intros v Hv. apply in_map_iff in Hv.
      destruct Hv as (i & <- & Hi). apply iter_range, In_arange, Hi.
Qed.
End ArrayPowers.

Section BothSpecies.
Import Numpy Translation.

Variable f : Z -> Z.
Variable N : Z.
Hypothesis N_nonneg : 0 <= N.
Hypothesis fits : 2 * N <= 2^63.
Hypothesis f_range : forall i, 0 <= i < N -> 0 <= f i < N.

Lemma on_both_range (i : Z) :
  0 <= i < 2 * N -> 0 <= on_both f N i < 2 * N.
Proof.
  intros Hi. unfold on_both. destruct (Z.ltb_spec i N).
  - pose proof (f_range i ltac:(lia)). lia.
  - pose proof (f_range (i - N) ltac:(lia)). lia.
Qed.

(** The stacked array of the script is the array of [on_both f N]. *)
Lemma doubled_on_both :
  hstack (map f (arange N)) (add_scalar (map f (arange N)) N)
  = map (on_both f N) (arange (2 * N)).
Proof.
  rewrite (add_scalar_map f N fits f_range), (arange_double N N_nonneg).
  unfold hstack. rewrite map_app, map_map. f_equal.
  - apply map_ext_in. intros i Hi. apply In_arange in Hi.
    unfold on_both. destruct (Z.ltb_spec i N); [reflexivity|lia].
  - apply map_ext_in. intros i Hi. apply In_arange in Hi.
    unfold on_both. destruct (Z.ltb_spec (i + N) N); [lia|].
    do 2 f_equal. lia.
Qed.

Lemma iter_on_both (k : nat) (i : Z) :
  0 <= i < 2 * N ->
  Nat.iter k (on_both f N) i = on_both (Nat.iter k f) N i.
Proof.
  intros Hi. induction k as [|k IH].
  - unfold on_both. cbn [Nat.iter nat_rect]. destruct (i <? N); lia.
  - change (Nat.iter (Datatypes.S k) (on_both f N) i)
      with (on_both f N (Nat.iter k (on_both f N) i)).
    rewrite IH. unfold on_both.
    change (Nat.iter (Datatypes.S k) f) with (fun v => f (Nat.iter k f v)).
    cbv beta.
    destruct (Z.ltb_spec i N) as [Hlt|Hge].
    + pose proof (iter_range f N f_range k i ltac:(lia)) as Hr.
      destruct (Z.ltb_spec (Nat.iter k f i) N); [reflexivity|lia].
    + pose proof (iter_range f N f_range k (i - N) ltac:(lia)) as Hr.
      destruct (Z.ltb_spec (Nat.iter k f (i - N) + N) N); [lia|].
      do 2 f_equal. lia.
Qed.

(** If [k] steps of [f] are the identity on [0, N), then the [k]-th power of
    the stacked array is the identity array. *)
Lemma doubled_power (k : nat) :
  (forall i, 0 <= i < N -> Nat.iter k f i = i) ->
  array_power (hstack (map f (arange N)) (add_scalar (map f (arange N)) N)) k
  = Some (arange (2 * N)).
Proof.
  intros Hk. rewrite doubled_on_both.
  rewrite (array_power_map _ (2 * N) ltac:(lia) on_both_range).
  f_equal. rewrite <- (map_id (arange (2 * N))) at 2.
  apply map_ext_in. intros i Hi. apply In_arange in Hi.
  rewrite iter_on_both by exact Hi. unfold on_both.
  destruct (Z.ltb_spec i N); rewrite Hk; lia.
Qed.
End BothSpecies.

Section TranslationOrders.
Import Numpy Translation.

Variables Lx Ly : Z.
Hypothesis Lx_pos : 0 < Lx.
Hypothesis Ly_pos : 0 < Ly.
Hypothesis fits : 2 * (Lx * Ly) <= 2^63.

(** Column [a] of row [q] has index [a + Lx * q]. *)
Lemma site_mod (a q : Z) : 0 <= a < Lx -> (a + Lx * q) mod Lx = a.
Proof. intros Ha. symmetry. apply (Z.mod_unique _ _ q); lia. Qed.

Lemma site_div (a q : Z) : 0 <= a < Lx -> (a + Lx * q) / Lx = q.
Proof. intros Ha. symmetry. apply (Z.div_unique _ _ _ a); lia. Qed.

Lemma iter_step_x (k : nat) (i : Z) :
  Nat.iter k (step_x Lx) i
  = (i mod Lx + Z.of_nat k) mod Lx + Lx * (i / Lx).
Proof.
  induction k as [|k IH].
  - cbn [Nat.iter nat_rect]. rewrite Z.add_0_r, Z.mod_mod by lia.
    rewrite (Z.div_mod i Lx) at 1 by lia. lia.
  - change (Nat.iter (Datatypes.S k) (step_x Lx) i)
      with (step_x Lx (Nat.iter k (step_x Lx) i)).
    rewrite IH. unfold step_x.
    pose proof (Z.mod_pos_bound (i mod Lx + Z.of_nat k) Lx Lx_pos) as Hb.
    rewrite (site_mod _ _ Hb), (site_div _ _ Hb).
    rewrite Z.add_mod_idemp_l by lia. do 2 f_equal. lia.
Qed.

Lemma iter_step_y (k : nat) (i : Z) :
  0 <= i < Lx * Ly ->
  Nat.iter k (step_y Lx Ly) i
  = i mod Lx + Lx * ((i / Lx + Z.of_nat k) mod Ly).
Proof.
  intros Hi. induction k as [|k IH].
  - cbn [Nat.iter nat_rect]. rewrite Z.add_0_r.
    rewrite (Z.mod_small (i / Lx)) by (apply row_bound; assumption).
    rewrite (Z.div_mod i Lx) at 1 by lia. lia.
  - change (Nat.iter (Datatypes.S k) (step_y Lx Ly) i)
      with (step_y Lx Ly (Nat.iter k (step_y Lx Ly) i)).
    rewrite IH. unfold step_y.
    pose proof (Z.mod_pos_bound i Lx Lx_pos) as Hb.
    rewrite (site_mod _ _ Hb), (site_div _ _ Hb).
    rewrite Z.add_mod_idemp_l by lia. do 3 f_equal. lia.
Qed.

Lemma step_x_order (i : Z) : Nat.iter (Z.to_nat Lx) (step_x Lx) i = i.
Proof.
  rewrite iter_step_x, Z2Nat.id by lia.
  rewrite <- (Z.mul_1_l Lx) at 2. rewrite Z_mod_plus_full, Z.mod_mod by lia.
  rewrite (Z.div_mod i Lx) at 3 by lia. lia.
Qed.

Lemma step_y_order (i : Z) :
  0 <= i < Lx * Ly -> Nat.iter (Z.to_nat Ly) (step_y Lx Ly) i = i.
Proof.
  intros Hi. rewrite iter_step_y, Z2Nat.id by lia.
  rewrite <- (Z.mul_1_l Ly) at 1. rewrite Z_mod_plus_full.
  rewrite (Z.mod_small (i / Lx)) by (apply row_bound; assumption).
  rewrite (Z.div_mod i Lx) at 3 by lia. lia.
Qed.

(** On every lattice, [Lx] translations along x and [Ly] translations along
    y are the identity on all [2 * Lx * Ly] indices. *)
Lemma T_x_order :
  array_power (Lattice.T_x Lx Ly) (Z.to_nat Lx)
  = Some (arange (2 * (Lx * Ly))).
Proof.
  unfold Lattice.T_x, Lattice.N_2d.
  rewrite (t_x_spec Lx Ly Lx_pos Ly_pos fits).
  apply doubled_power; [nia|assumption|..].
  - apply step_x_range; assumption.
  - intros i _. apply step_x_order.
Qed.

Lemma T_y_order :
  array_power (Lattice.T_y Lx Ly) (Z.to_nat Ly)
  = Some (arange (2 * (Lx * Ly))).
Proof.
  unfold Lattice.T_y, Lattice.N_2d.
  rewrite (t_y_spec Lx Ly Lx_pos Ly_pos fits).
  apply doubled_power; [nia|assumption|..].
  - apply step_y_range; assumption.
  - apply step_y_order.
Qed.
End TranslationOrders.

(* ===================================================================== *)
(** ** The script as written: the 4 x 4 lattice *)
(* ===================================================================== *)

Section ExampleClaims.
Import Numpy.

Example example_sizes : Example.N_2d = 16 /\ 2 * Example.N_2d = 32.
Proof. split; reflexivity. Qed.

Example example_T_x :
  Example.T_x =
    [1; 2; 3; 0; 5; 6; 7; 4; 9; 10; 11; 8; 13; 14; 15; 12;
     17; 18; 19; 16; 21; 22; 23; 20; 25; 26; 27; 24; 29; 30; 31; 28].
Proof. reflexivity. Qed.

Example example_T_y :
  Example.T_y =
    [4; 5; 6; 7; 8; 9; 10; 11; 12; 13; 14; 15; 0; 1; 2; 3;
     20; 21; 22; 23; 24; 25; 26; 27; 28; 29; 30; 31; 16; 17; 18; 19].
Proof. reflexivity. Qed.

Example example_S :
  Example.S =
    [16; 17; 18; 19; 20; 21; 22; 23; 24; 25; 26; 27; 28; 29; 30; 31;
     0; 1; 2; 3; 4; 5; 6; 7; 8; 9; 10; 11; 12; 13; 14; 15].
Proof. reflexivity. Qed.

(** The literals [1.0], [2.0], [0.5] and their negations as binary64
    values. *)
Example example_floats :
  Example.J = S754_finite false 4503599627370496 (-52) /\
  Example.U = S754_finite false 4503599627370496 (-51) /\
  Example.mu = S754_finite false 4503599627370496 (-53) /\
  float_neg Example.J = S754_finite true 4503599627370496 (-52).
Proof. repeat split. Qed.

(** C5.  With Lx = Ly = 4 (N_2d = 16, 2*N_2d = 32) the arrays [T_x] and
    [T_y] have 32 entries each and are permutations of 0, 1, ..., 31:
    every integer of [0, 32) occurs exactly once in [T_x] and exactly once
    in [T_y]. *)
Theorem example_translations_are_permutations :
  2 * Example.N_2d = 32 /\
  length Example.T_x = 32%nat /\ length Example.T_y = 32%nat /\
  Permutation Example.T_x (range 32) /\
  Permutation Example.T_y (range 32) /\
  (forall k : Z, 0 <= k < 32 ->
     count_occ Z.eq_dec Example.T_x k = 1%nat /\
     count_occ Z.eq_dec Example.T_y k = 1%nat).
Proof.
  assert (Px : Permutation Example.T_x (arange 32))
    by (apply (T_x_permutation 4 4); lia).
  assert (Py : Permutation Example.T_y (arange 32))
    by (apply (T_y_permutation 4 4); lia).
  split; [reflexivity|]. split; [reflexivity|]. split; [reflexivity|].
  split; [exact Px|]. split; [exact Py|].
  intros k Hk. split; eapply permutation_count; eassumption.
Qed.

Lemma example_translations_are_permutations_witness :
  count_occ Z.eq_dec Example.T_x 7 = 1%nat /\
  count_occ Z.eq_dec Example.T_y 7 = 1%nat.
Proof.
  apply (proj2 (proj2 (proj2 (proj2
           (proj2 example_translations_are_permutations)))) 7).
  lia.
Defined.

(** C6.  With N_2d = 16 the interaction list has exactly 16 entries, and
    its entry number i, for every i in [0, 16), is [U, i, i+16]. *)
Theorem example_interaction :
  length Example.interaction = 16%nat /\
  (forall i : Z, 0 <= i < 16 ->
     Example.interaction !! Z.to_nat i
     = Some [PyFloat Example.U; PyInt i; PyInt (i + 16)]).
Proof.
  split; [reflexivity|].
  intros i Hi. apply (interaction_lookup 4 4 Example.U i Hi).
Qed.

Lemma example_interaction_witness :
  Example.interaction !! Z.to_nat 3
  = Some [PyFloat Example.U; PyInt 3; PyInt (3 + 16)].
Proof. apply (proj2 example_interaction 3). lia. Defined.

(** C8.  The spin inversion array [S] holds (i + 16) mod 32 at every index
    i of [0, 32), and it is an involution: S[S[i]] = i. *)
Theorem example_spin_inversion (i : Z) :
  0 <= i < 32 ->
  getitem Example.S i = Some ((i + 16) mod 32) /\
  (v ← getitem Example.S i; getitem Example.S v) = Some i.
Proof.
  intros Hi. split.
  - apply (S_getitem 4 4); lia.
  - apply (S_involution 4 4); lia.
Qed.

Lemma example_spin_inversion_witness :
  getitem Example.S 20 = Some ((20 + 16) mod 32) /\
  (v ← getitem Example.S 20; getitem Example.S v) = Some 20.
Proof. apply (example_spin_inversion 20). lia. Defined.
End ExampleClaims.

Section ExampleOrders.
Import Numpy.

Lemma Forall_range (P : Z -> Prop) (n : Z) :
  List.Forall P (range n) -> forall i, 0 <= i < n -> P i.
Proof.
  intros H i Hi. rewrite List.Forall_forall in H.
  apply H, In_arange, Hi.
Qed.

(** The order is not smaller than four: one, two or three steps move
    index 0. *)
Lemma example_powers_below_order (k : nat) :
  (0 < k < 4)%nat ->
  array_power Example.T_x k <> Some (arange 32) /\
  array_power Example.T_y k <> Some (arange 32).
Proof.
  intros Hk.
  destruct k as [|[|[|[|k]]]]; try lia; split; vm_compute; discriminate.
Qed.

(** C9.  Composing [T_x] with itself Lx = 4 times gives the identity array
    0, 1, ..., 31, and so does composing [T_y] with itself Ly = 4 times;
    index by index, four applications of either array bring every i of
    [0, 32) back to i.  Fewer compositions (one, two or three) do not give
    the identity, so both orders are exactly 4. *)
Theorem example_translation_orders :
  array_power Example.T_x (Z.to_nat Example.Lx) = Some (arange 32) /\
  array_power Example.T_y (Z.to_nat Example.Ly) = Some (arange 32) /\
  (forall i : Z, 0 <= i < 32 ->
     (a ← getitem Example.T_x i; b ← getitem Example.T_x a;
      c ← getitem Example.T_x b; getitem Example.T_x c) = Some i /\
     (a ← getitem Example.T_y i; b ← getitem Example.T_y a;
      c ← getitem Example.T_y b; getitem Example.T_y c) = Some i) /\
  (forall k : nat, (0 < k < 4)%nat ->
     array_power Example.T_x k <> Some (arange 32) /\
     array_power Example.T_y k <> Some (arange 32)).
Proof.
  split; [apply (T_x_order 4 4); lia|].
  split; [apply (T_y_order 4 4); lia|].
  split; [|exact example_powers_below_order].
  apply Forall_range. vm_compute. repeat constructor.
Qed.

Lemma example_translation_orders_witness :
  ((a ← getitem Example.T_x 11; b ← getitem Example.T_x a;
    c ← getitem Example.T_x b; getitem Example.T_x c) = Some 11 /\
   (a ← getitem Example.T_y 11; b ← getitem Example.T_y a;
    c ← getitem Example.T_y b; getitem Example.T_y c) = Some 11) /\
  (array_power Example.T_x 2 <> Some (arange 32) /\
   array_power Example.T_y 2 <> Some (arange 32)).
Proof.
  split.
  - apply (proj1 (proj2 (proj2 example_translation_orders)) 11). lia.
  - apply (proj2 (proj2 (proj2 example_translation_orders)) 2%nat). lia.
Defined.

(** C10.  [hopping_left] and [hopping_right] are built without an index
    error and have 64 entries each: the 32 entries made from [T_x]
    followed by the 32 made from [T_y].  At every position k the entry of
    [hopping_left] is [-J, i, j] and the entry of [hopping_right] is
    [+J, i, j] with the same two site indices i and j; the two
    coefficients are negations of each other and differ. *)
Theorem example_hopping_lists :
  exists l r : list (list pyval),
    Example.hopping_left = Some l /\
    Example.hopping_right = Some r /\
    length l = 64%nat /\ length r = 64%nat /\
    (exists lx ly,
        Lattice.hops (float_neg Example.J) Example.T_x 32 = Some lx /\
        Lattice.hops (float_neg Example.J) Example.T_y 32 = Some ly /\
        length lx = 32%nat /\ length ly = 32%nat /\ l = (lx ++ ly)%list) /\
    (forall k : nat, (k < 64)%nat ->
       exists i j : Z,
         l !! k = Some [PyFloat (float_neg Example.J); PyInt i; NpInt64 j] /\
         r !! k = Some [PyFloat (float_pos Example.J); PyInt i; NpInt64 j]) /\
    float_pos Example.J = float_neg (float_neg Example.J) /\
    float_pos Example.J <> float_neg Example.J.
Proof.
  destruct (hopping_lists 4 4 Example.J ltac:(lia) ltac:(lia))
    as (lx & ly & rx & ry & Elx & Ely & Erx & Ery & El & Er
        & Hlx & Hly & HF).
  exists (lx ++ ly)%list, (rx ++ ry)%list.
  pose proof (Forall2_length _ _ _ HF) as Hlen.
  assert (Hl : length (lx ++ ly)%list = 64%nat)
    by (rewrite length_app, Hlx, Hly; reflexivity).
  split; [exact El|]. split; [exact Er|]. split; [exact Hl|].
  split; [congruence|]. split.
  - exists lx, ly. repeat split; assumption.
  - split; [|split; [reflexivity|discriminate]].
    intros k Hk.
    destruct (lookup_lt_is_Some_2 (lx ++ ly)%list k ltac:(lia)) as [el Eel].
    destruct (Forall2_lookup_l _ _ _ _ _ HF Eel) as (er & Eer & i & j & -> & ->).
    exists i, j. split; assumption.
Qed.

Lemma example_hopping_lists_witness :
  exists l r : list (list pyval),
    Example.hopping_left = Some l /\
    Example.hopping_right = Some r /\
    exists i j : Z,
      l !! 40%nat
        = Some [PyFloat (float_neg Example.J); PyInt i; NpInt64 j] /\
      r !! 40%nat
        = Some [PyFloat (float_pos Example.J); PyInt i; NpInt64 j].
Proof.
  destruct example_hopping_lists
    as (l & r & El & Er & _ & _ & _ & Hk & _).
  exists l, r. split; [exact El|]. split; [exact Er|].
  apply (Hk 40%nat). lia.
Defined.
End ExampleOrders.

(* ===================================================================== *)
(** ** [setup.py]: how the command line block ends *)
(* ===================================================================== *)

Section SetupOutcomes.
Import Setup.
Local Open Scope string_scope.

Lemma cython_files_outcome (env : Env) :
  outcome (cython_files env) =
    if cython_importable env
    then match cythonize_raises env
                 (glob_matches env (OsPath.join (package_dir env) "*.pyx"))
                 "c++" with
         | None => Ret tt
         | Some e => Raise e
         end
    else Ret tt.
Proof.
  rewrite cython_files_eq. cbv zeta.
  destruct (cython_importable env); [|reflexivity].
  unfold cythonize. rewrite !bind_emit. unfold outcome at 1. cbn [snd].
  destruct (cythonize_raises env _ _); reflexivity.
Qed.

(** The [except ImportError] clause of [cython_files] guards the import
    only: the function ends with whatever [cythonize] ends with, also when
    that is an ImportError, and ends normally when Cython is missing. *)
Theorem cython_files_raises_what_cythonize_raises (env : Env) :
  outcome (cython_files env) =
    if cython_importable env
    then match cythonize_raises env
                 (glob_matches env (OsPath.join (package_dir env) "*.pyx"))
                 "c++" with
         | None => Ret tt
         | Some e => Raise e
         end
    else Ret tt.
Proof. apply cython_files_outcome. Qed.

Lemma main_outcome_not_IndexError (body : M event unit) :
  outcome (try_except body IndexError (ret tt)) <> Raise IndexError.
Proof.
  destruct (try_except_pass body IndexError) as [_ ->].
  destruct (outcome body) as [[]|e]; [discriminate|].
  destruct (exn_eqb e IndexError) eqn:E; [discriminate|].
  intros H. inversion H; subst. rewrite exn_eqb_refl in E. discriminate.
Qed.

(** Whatever the command line and the installation, the command line block
    never ends with an IndexError. *)
Theorem main_never_raises_IndexError (env : Env) (argv : list string) :
  outcome (main env argv) <> Raise IndexError.
Proof. unfold main. apply main_outcome_not_IndexError. Qed.

(** In build mode the block ends the way [setup] ends, except that an
    IndexError escaping from [setup] is swallowed and the block ends
    normally. *)
Theorem main_build_outcome
    (env : Env) (prog instr : string) (rest : list string) :
  instr <> "build_templates" ->
  exists config,
    outcome (configuration env "" (Some "")) = Ret config /\
    outcome (main env (prog :: instr :: rest)) =
      match setup_raises env config with
      | None => Ret tt
      | Some e => if exn_eqb e IndexError then Ret tt else Raise e
      end.
Proof.
  intros Hne. rewrite (main_other env prog instr rest Hne).
  rewrite configuration_eq. eexists. split; [reflexivity|].
  match goal with
  | |- outcome (try_except ?b _ _) = _ =>
      destruct (try_except_pass b IndexError) as [_ ->]
  end.
  cbv beta iota delta [setup bind emit outcome of_raises ret raise snd app].
  destruct (setup_raises env _); reflexivity.
Qed.

Lemma main_build_outcome_witness :
  outcome (main (Failures.make None (Some (OtherError "CompileError")))
                ["setup.py"; "build_ext"])
    = Raise (OtherError "CompileError") /\
  outcome (main (Failures.make None (Some IndexError))
                ["setup.py"; "build_ext"])
    = Ret tt.
Proof.
  split.
  - destruct (main_build_outcome
                (Failures.make None (Some (OtherError "CompileError")))
                "setup.py" "build_ext" [] ltac:(discriminate))
      as (config & _ & E).
    exact E.
  - destruct (main_build_outcome (Failures.make None (Some IndexError))
                "setup.py" "build_ext" [] ltac:(discriminate))
      as (config & _ & E).
    exact E.
Defined.

(** In template mode the block ends the way [cythonize] ends, except that
    an IndexError is swallowed; without Cython it ends normally. *)
Theorem main_templates_outcome
    (env : Env) (prog : string) (rest : list string) :
  outcome (main env (prog :: "build_templates" :: rest)) =
    if cython_importable env
    then match cythonize_raises env
                 (glob_matches env (OsPath.join (package_dir env) "*.pyx"))
                 "c++" with
         | None => Ret tt
         | Some e => if exn_eqb e IndexError then Ret tt else Raise e
         end
    else Ret tt.
Proof.
  rewrite main_build_templates.
  destruct (try_except_pass (cython_files env) IndexError) as [_ ->].
  rewrite cython_files_outcome.
  destruct (cython_importable env); [|reflexivity].
  destruct (cythonize_raises env _ _); reflexivity.
Qed.

(** Template mode without Cython, from the command line: the block ends
    normally, its only library call is the glob of the [*.pyx] pattern, and
    nothing is written. *)
Theorem main_templates_without_cython
    (env : Env) (prog : string) (rest : list string) :
  cython_importable env = false ->
  main env (prog :: "build_templates" :: rest)
    = ([EvGlob (OsPath.join (package_dir env) "*.pyx")], Ret tt) /\
  List.Forall (fun ev => writes_files ev = false)
              (trace (main env (prog :: "build_templates" :: rest))).
Proof.
  intros H. rewrite main_build_templates, cython_files_eq. cbv zeta.
  rewrite H. split; [reflexivity|]. repeat constructor.
Qed.

Lemma main_templates_without_cython_witness :
  main Installations.without_cython ["setup.py"; "build_templates"]
    = ([EvGlob "/opt/QuSpin/quspin/basis/basis_1d/_constructors/*.pyx"],
       Ret tt) /\
  List.Forall (fun ev => writes_files ev = false)
    (trace (main Installations.without_cython
                 ["setup.py"; "build_templates"])).
Proof.
  apply (main_templates_without_cython Installations.without_cython
           "setup.py" [] eq_refl).
Defined.

(** Only [sys.argv[1]] matters: the program name and every argument after
    the first change nothing. *)
Theorem main_reads_first_argument_only
    (env : Env) (prog prog' instr : string) (rest rest' : list string) :
  main env (prog :: instr :: rest) = main env (prog' :: instr :: rest').
Proof. reflexivity. Qed.
End SetupOutcomes.

(* ===================================================================== *)
(** ** Files of the package directory *)
(* ===================================================================== *)

Section PackageFiles.
Import OsPath Setup.
Local Open Scope string_scope.

Lemma chars_app (a b : string) :
  list_ascii_of_string (a ++ b)
  = (list_ascii_of_string a ++ list_ascii_of_string b)%list.
Proof. induction a as [|c a IH]; [reflexivity|]. cbn. rewrite IH. reflexivity. Qed.

Lemma drop_while_all {A} (g : A -> bool) (l1 l2 : list A) :
  forallb g l1 = true -> drop_while g (l1 ++ l2)%list = drop_while g l2.
Proof.
  induction l1 as [|a l1 IH]; [reflexivity|].
  cbn. intros H. apply andb_prop in H. destruct H as [Ha Hl].
  rewrite Ha. apply IH, Hl.
Qed.

Lemma drop_while_stops {A} (g : A -> bool) (l : list A) :
  forallb g l = false ->
  exists c l', drop_while g l = c :: l' /\ g c = false.
Proof.
  induction l as [|a l IH]; [discriminate|].
  cbn. destruct (g a) eqn:Ea; [exact IH|]. intros _. eauto.
Qed.

Lemma forallb_rev {A} (g : A -> bool) (l : list A) :
  forallb g (rev l) = forallb g l.
Proof.
  induction l as [|a l IH]; [reflexivity|].
  cbn. rewrite forallb_app, IH. cbn. rewrite andb_true_r. apply andb_comm.
Qed.

Lemma endswith_sep_last (l : list ascii) (c : ascii) :
  endswith_sep (string_of_list_ascii (l ++ [c])) = is_sep c.
Proof.
  induction l as [|a l IH]; [reflexivity|].
  cbn [app string_of_list_ascii endswith_sep]. rewrite IH.
  destruct (string_of_list_ascii (l ++ [c])) eqn:E; [|reflexivity].
  destruct l; discriminate E.
Qed.

Lemma is_empty_last (l : list ascii) (c : ascii) :
  is_empty (string_of_list_ascii (l ++ [c])) = false.
Proof. destruct l; reflexivity. Qed.

Lemma startswith_sep_free (f : string) :
  sep_free f = true -> startswith_sep f = false.
Proof.
  destruct f as [|c f]; [reflexivity|]. unfold sep_free. cbn.
  intros H. apply andb_prop in H. destruct H as [H _].
  apply negb_true_iff in H. exact H.
Qed.

(** What [dirname] returns is either made of separators only (the root, or
    nothing at all) or does not end in a separator. *)
Lemma dirname_normal (p : string) :
  exists r : list ascii,
    dirname p = string_of_list_ascii (rev r) /\
    (forallb is_sep r = true \/
     exists c r', r = c :: r' /\ is_sep c = false).
Proof.
  unfold dirname.
  set (h := drop_while _ (rev (list_ascii_of_string p))).
  destruct (forallb is_sep h) eqn:E.
  - exists h. split; [reflexivity|]. left. exact E.
  - destruct (drop_while_stops _ _ E) as (c & r' & Er & Hc).
    exists (c :: r'). rewrite Er. split; [reflexivity|]. right. eauto.
Qed.

Lemma dirname_chars (l : list ascii) :
  dirname (string_of_list_ascii (rev l)) =
    let h := drop_while (fun c => negb (is_sep c)) l in
    string_of_list_ascii
      (rev (if forallb is_sep h then h else drop_while is_sep h)).
Proof.
  unfold dirname.
  rewrite list_ascii_of_string_of_list_ascii, rev_involutive. reflexivity.
Qed.

Lemma string_of_chars_app (l1 l2 : list ascii) :
  string_of_list_ascii (l1 ++ l2)
  = string_of_list_ascii l1 ++ string_of_list_ascii l2.
Proof. induction l1 as [|c l1 IH]; [reflexivity|]. cbn. rewrite IH. reflexivity. Qed.

(** A file joined to a directory that [dirname] produced has that directory
    as its [dirname]. *)
Lemma dirname_join_dirname (p f : string) :
  sep_free f = true -> dirname (join (dirname p) f) = dirname p.
Proof.
  intros Hf. destruct (dirname_normal p) as (r & -> & Hr).
  pose proof (startswith_sep_free f Hf) as Hs.
  assert (Hfr : forallb (fun c => negb (is_sep c))
                        (rev (list_ascii_of_string f)) = true)
    by (rewrite forallb_rev; exact Hf).
  unfold join. rewrite Hs.
  destruct r as [|c r'].
  - cbn [rev string_of_list_ascii is_empty orb append].
    rewrite <- (string_of_list_ascii_of_string f) at 1.
    rewrite <- (rev_involutive (list_ascii_of_string f)).
    rewrite dirname_chars. cbv zeta.
    rewrite <- (app_nil_r (rev (list_ascii_of_string f))).
    rewrite (drop_while_all _ _ [] Hfr). reflexivity.
  - cbn [rev]. rewrite endswith_sep_last, is_empty_last. cbn [orb].
    destruct (is_sep c) eqn:Ec.
    + destruct Hr as [Hall|(c' & r'' & E & Hc')];
        [|inversion E; subst; congruence].
      rewrite <- (string_of_list_ascii_of_string f) at 1.
      rewrite <- string_of_chars_app.
      rewrite <- (rev_involutive (list_ascii_of_string f)) at 1.
      change (rev r' ++ [c])%list with (rev (c :: r')).
      rewrite <- rev_app_distr, dirname_chars. cbv zeta.
      rewrite (drop_while_all _ _ (c :: r') Hfr).
      cbn [drop_while]. rewrite Ec. cbn [negb]. rewrite Hall. reflexivity.
    + rewrite <- (string_of_list_ascii_of_string f) at 1.
      change (String sep (string_of_list_ascii (list_ascii_of_string f)))
        with (string_of_list_ascii (sep :: list_ascii_of_string f)).
      rewrite <- string_of_chars_app.
      rewrite <- (rev_involutive (list_ascii_of_string f)) at 1.
      change (rev r' ++ [c])%list with (rev (c :: r')).
      change (sep :: rev (rev (list_ascii_of_string f)))
        with ([sep] ++ rev (rev (list_ascii_of_string f)))%list.
      rewrite <- (rev_unit (rev (list_ascii_of_string f)) sep) at 1.
      rewrite <- rev_app_distr, dirname_chars. cbv zeta.
      rewrite <- app_assoc, (drop_while_all _ _ _ Hfr).
      repeat first
        [ progress (change (is_sep sep) with true)
        | rewrite Ec
        | progress cbn [negb andb forallb drop_while app] ].
      reflexivity.
Qed.

(** Every source file that [configuration] registers, and every file the
    glob pattern of [cython_files] can match, lies directly in the directory
    of the script. *)
Theorem package_files_in_package_dir
    (env : Env) (parent : string) (top : option string) :
  (exists config,
     outcome (configuration env parent top) = Ret config /\
     List.Forall (fun e => dirname (sources e) = package_dir env)
                 (ext_modules config)) /\
  (exists pattern,
     trace (cython_files env) !! 0%nat = Some (EvGlob pattern) /\
     dirname pattern = package_dir env).
Proof.
  split.
  - rewrite configuration_eq. eexists. split; [reflexivity|].
    cbn [ext_modules registered sources].
    repeat constructor; apply dirname_join_dirname; reflexivity.
  - rewrite cython_files_trace. cbv zeta. eexists. split; [reflexivity|].
    apply dirname_join_dirname. reflexivity.
Qed.
End PackageFiles.

(* ===================================================================== *)
(** ** The symmetry generators as maps of site indices *)
(* ===================================================================== *)

Section GeneratorMaps.
Import Numpy Translation.

Lemma getitem_map (F : Z -> Z) (n i : Z) :
  0 <= i < n -> getitem (map F (arange n)) i = Some (F i).
Proof.
  intros Hi. rewrite getitem_lookup
    by (rewrite length_map, arange_length; lia).
  rewrite list_lookup_fmap, arange_lookup by exact Hi. reflexivity.
Qed.

(** Indexing one index map with another composes the two maps. *)
Lemma take_indices_compose (F G : Z -> Z) (n : Z) :
  0 <= n -> (forall i, 0 <= i < n -> 0 <= G i < n) ->
  take_indices (map F (arange n)) (map G (arange n))
  = Some (map (fun i => F (G i)) (arange n)).
Proof.
  intros Hn HG. rewrite take_indices_map.
  - rewrite map_map. reflexivity.
  - apply List.Forall_forall. intros v Hv. apply in_map_iff in Hv.
    destruct Hv as (i & <- & Hi). apply HG, In_arange, Hi.
Qed.

Lemma roll_permutation (a : list Z) (shift : Z) : Permutation (roll a shift) a.
Proof.
  rewrite roll_unfold.
  set (k := (length a - _)%nat).
  rewrite <- (take_drop k a) at 3. apply Permutation_app_comm.
Qed.

Lemma on_both_compose (f g : Z -> Z) (N i : Z) :
  (forall v, 0 <= v < N -> 0 <= g v < N) -> 0 <= i < 2 * N ->
  on_both f N (on_both g N i) = on_both (fun v => f (g v)) N i.
Proof.
  intros Hg Hi. unfold on_both. destruct (Z.ltb_spec i N).
  - pose proof (Hg i ltac:(lia)).
    destruct (Z.ltb_spec (g i) N); [reflexivity|lia].
  - pose proof (Hg (i - N) ltac:(lia)).
    destruct (Z.ltb_spec (g (i - N) + N) N); [lia|].
    do 2 f_equal. lia.
Qed.

Lemma flip_half (N i : Z) :
  0 < N -> 0 <= i < 2 * N ->
  flip N i = if i <? N then i + N else i - N.
Proof. apply half_turn. Qed.

Lemma flip_on_both (f : Z -> Z) (N i : Z) :
  0 < N -> (forall v, 0 <= v < N -> 0 <= f v < N) -> 0 <= i < 2 * N ->
  flip N (on_both f N i) = on_both f N (flip N i).
Proof.
  intros HN Hf Hi.
  pose proof (on_both_range f N Hf i Hi) as Hr.
  rewrite !flip_half by assumption. unfold on_both.
  destruct (Z.ltb_spec i N).
  - pose proof (Hf i ltac:(lia)).
    destruct (Z.ltb_spec (f i) N); [|lia].
    destruct (Z.ltb_spec (i + N) N); [lia|]. do 2 f_equal. lia.
  - pose proof (Hf (i - N) ltac:(lia)).
    destruct (Z.ltb_spec (f (i - N) + N) N); [lia|].
    destruct (Z.ltb_spec (i - N) N); lia.
Qed.

Lemma flip_range (N i : Z) :
  0 < N -> 0 <= i < 2 * N -> 0 <= flip N i < 2 * N.
Proof. intros HN Hi. unfold flip. apply Z.mod_pos_bound. lia. Qed.

Variables Lx Ly : Z.
Hypothesis Lx_pos : 0 < Lx.
Hypothesis Ly_pos : 0 < Ly.

Let N := Lx * Ly.

Lemma N_pos : 0 < N.
Proof. unfold N. nia. Qed.

Lemma S_flip : Lattice.S Lx Ly = map (flip N) (arange (2 * N)).
Proof.
  pose proof N_pos as HN.
  apply list_eq. intros k.
  destruct (Nat.lt_ge_cases k (Z.to_nat (2 * N))) as [Hk|Hk].
  - rewrite <- (Nat2Z.id k). unfold Lattice.S, Lattice.s, Lattice.N_2d.
    fold N. rewrite roll_half_lookup by lia.
    rewrite list_lookup_fmap, arange_lookup by lia. reflexivity.
  - rewrite !lookup_ge_None_2; [reflexivity|..].
    + rewrite length_map, arange_length. exact Hk.
    + rewrite (S_length Lx Ly). exact Hk.
Qed.

Hypothesis fits : 2 * (Lx * Ly) <= 2^63.

Lemma T_x_on_both :
  Lattice.T_x Lx Ly = map (on_both (step_x Lx) N) (arange (2 * N)).
Proof.
  pose proof N_pos. unfold Lattice.T_x, Lattice.N_2d.
  rewrite (t_x_spec Lx Ly Lx_pos Ly_pos fits).
  apply doubled_on_both; [fold N; lia|exact fits|].
  apply step_x_range; assumption.
Qed.

Lemma T_y_on_both :
  Lattice.T_y Lx Ly = map (on_both (step_y Lx Ly) N) (arange (2 * N)).
Proof.
  pose proof N_pos. unfold Lattice.T_y, Lattice.N_2d.
  rewrite (t_y_spec Lx Ly Lx_pos Ly_pos fits).
  apply doubled_on_both; [fold N; lia|exact fits|].
  apply step_y_range; assumption.
Qed.

Lemma step_x_step_y (i : Z) :
  step_x Lx (step_y Lx Ly i) = step_y Lx Ly (step_x Lx i).
Proof.
  unfold step_x at 1. rewrite step_y_mod, step_y_div by assumption.
  unfold step_y at 1. rewrite step_x_mod, step_x_div by assumption.
  reflexivity.
Qed.
End GeneratorMaps.

(* ===================================================================== *)
(** ** The generators on every lattice *)
(* ===================================================================== *)

Section GeneratorTheorems.
Import Numpy Translation.

(** On every lattice whose indices fit in [int64], the three symmetry
    generators [T_x], [T_y] and [S] are permutations of the site indices
    [0, 2 * Lx * Ly) of both species. *)
Theorem lattice_generators_are_permutations (Lx Ly : Z) :
  0 < Lx -> 0 < Ly -> 2 * (Lx * Ly) <= 2^63 ->
  Permutation (Lattice.T_x Lx Ly) (arange (2 * (Lx * Ly))) /\
  Permutation (Lattice.T_y Lx Ly) (arange (2 * (Lx * Ly))) /\
  Permutation (Lattice.S Lx Ly) (arange (2 * (Lx * Ly))).
Proof.
  intros HLx HLy Hfits. split; [|split].
  - apply T_x_permutation; assumption.
  - apply T_y_permutation; assumption.
  - apply roll_permutation.
Qed.

Lemma lattice_generators_are_permutations_witness :
  Permutation (Lattice.T_x 3 2) (arange 12) /\
  Permutation (Lattice.T_y 3 2) (arange 12) /\
  Permutation (Lattice.S 3 2) (arange 12).
Proof. apply (lattice_generators_are_permutations 3 2); lia. Defined.

(** On every such lattice [Lx] translations along x, and [Ly] translations
    along y, bring every site back to where it was. *)
Theorem lattice_translation_orders (Lx Ly : Z) :
  0 < Lx -> 0 < Ly -> 2 * (Lx * Ly) <= 2^63 ->
  array_power (Lattice.T_x Lx Ly) (Z.to_nat Lx)
    = Some (arange (2 * (Lx * Ly))) /\
  array_power (Lattice.T_y Lx Ly) (Z.to_nat Ly)
    = Some (arange (2 * (Lx * Ly))).
Proof.
  intros HLx HLy Hfits. split.
  - apply T_x_order; assumption.
  - apply T_y_order; assumption.
Qed.

Lemma lattice_translation_orders_witness :
  array_power (Lattice.T_x 3 2) (Z.to_nat 3) = Some (arange 12) /\
  array_power (Lattice.T_y 3 2) (Z.to_nat 2) = Some (arange 12).
Proof. apply (lattice_translation_orders 3 2); lia. Defined.

Lemma first_species (N v : Z) : 0 <= v < N -> v / N = 0 /\ v mod N = v.
Proof. intros H. split; [apply Z.div_small|apply Z.mod_small]; exact H. Qed.

Lemma second_species (N v : Z) :
  0 <= v < N -> (v + N) / N = 1 /\ (v + N) mod N = v.
Proof.
  intros H. split; symmetry.
  - apply (Z.div_unique _ _ _ v); lia.
  - apply (Z.mod_unique _ _ 1); lia.
Qed.

(** What [on_both f N] does to the species and to the index inside the
    species: the species stays, the index inside it goes through [f]. *)
Lemma on_both_coords (f : Z -> Z) (N i : Z) :
  (forall v, 0 <= v < N -> 0 <= f v < N) -> 0 <= i < 2 * N ->
  on_both f N i / N = i / N /\
  on_both f N i mod N = f (i mod N).
Proof.
  intros Hf Hi. unfold on_both. destruct (Z.ltb_spec i N).
  - destruct (first_species N i ltac:(lia)) as [-> ->].
    apply first_species, Hf. lia.
  - destruct (second_species N (i - N) ltac:(lia)) as [Hd Hm].
    replace (i - N + N) with i in Hd, Hm by lia.
    rewrite Hd, Hm. apply second_species, Hf. lia.
Qed.

(** [T_x] moves every site one column to the right, cyclically, inside its
    row and inside its species. *)
Theorem lattice_T_x_moves_one_column (Lx Ly i : Z) :
  0 < Lx -> 0 < Ly -> 2 * (Lx * Ly) <= 2^63 ->
  0 <= i < 2 * (Lx * Ly) ->
  exists j,
    getitem (Lattice.T_x Lx Ly) i = Some j /\
    0 <= j < 2 * (Lx * Ly) /\
    j / (Lx * Ly) = i / (Lx * Ly) /\
    (j mod (Lx * Ly)) / Lx = (i mod (Lx * Ly)) / Lx /\
    (j mod (Lx * Ly)) mod Lx = ((i mod (Lx * Ly)) mod Lx + 1) mod Lx.
Proof.
  intros HLx HLy Hfits Hi.
  pose proof (step_x_range Lx Ly HLx) as Hr.
  exists (on_both (step_x Lx) (Lx * Ly) i).
  rewrite (T_x_on_both Lx Ly HLx HLy Hfits), getitem_map by exact Hi.
  destruct (on_both_coords _ _ i Hr Hi) as [Hs ->].
  split; [reflexivity|]. split; [apply on_both_range; assumption|].
  split; [exact Hs|]. split; [apply step_x_div|apply step_x_mod]; assumption.
Qed.

Lemma lattice_T_x_moves_one_column_witness :
  exists j,
    getitem (Lattice.T_x 3 2) 11 = Some j /\
    0 <= j < 2 * (3 * 2) /\
    j / (3 * 2) = 11 / (3 * 2) /\
    (j mod (3 * 2)) / 3 = (11 mod (3 * 2)) / 3 /\
    (j mod (3 * 2)) mod 3 = ((11 mod (3 * 2)) mod 3 + 1) mod 3.
Proof. apply (lattice_T_x_moves_one_column 3 2 11); lia. Defined.

(** [T_y] moves every site one row up, cyclically, inside its column and
    inside its species. *)
Theorem lattice_T_y_moves_one_row (Lx Ly i : Z) :
  0 < Lx -> 0 < Ly -> 2 * (Lx * Ly) <= 2^63 ->
  0 <= i < 2 * (Lx * Ly) ->
  exists j,
    getitem (Lattice.T_y Lx Ly) i = Some j /\
    0 <= j < 2 * (Lx * Ly) /\
    j / (Lx * Ly) = i / (Lx * Ly) /\
    (j mod (Lx * Ly)) mod Lx = (i mod (Lx * Ly)) mod Lx /\
    (j mod (Lx * Ly)) / Lx = ((i mod (Lx * Ly)) / Lx + 1) mod Ly.
Proof.
  intros HLx HLy Hfits Hi.
  pose proof (step_y_range Lx Ly HLx HLy) as Hr.
  exists (on_both (step_y Lx Ly) (Lx * Ly) i).
  rewrite (T_y_on_both Lx Ly HLx HLy Hfits), getitem_map by exact Hi.
  destruct (on_both_coords _ _ i Hr Hi) as [Hs ->].
  split; [reflexivity|]. split; [apply on_both_range; assumption|].
  split; [exact Hs|]. split; [apply step_y_mod|apply step_y_div]; assumption.
Qed.

Lemma lattice_T_y_moves_one_row_witness :
  exists j,
    getitem (Lattice.T_y 3 2) 11 = Some j /\
    0 <= j < 2 * (3 * 2) /\
    j / (3 * 2) = 11 / (3 * 2) /\
    (j mod (3 * 2)) mod 3 = (11 mod (3 * 2)) mod 3 /\
    (j mod (3 * 2)) / 3 = ((11 mod (3 * 2)) / 3 + 1) mod 2.
Proof. apply (lattice_T_y_moves_one_row 3 2 11); lia. Defined.

(** The two translations commute: [T_x[T_y]] and [T_y[T_x]] are the same
    array. *)
Theorem lattice_translations_commute (Lx Ly : Z) :
  0 < Lx -> 0 < Ly -> 2 * (Lx * Ly) <= 2^63 ->
  exists c,
    take_indices (Lattice.T_x Lx Ly) (Lattice.T_y Lx Ly) = Some c /\
    take_indices (Lattice.T_y Lx Ly) (Lattice.T_x Lx Ly) = Some c.
Proof.
  intros HLx HLy Hfits.
  pose proof (N_pos Lx Ly HLx HLy) as HN. cbv zeta in HN.
  pose proof (step_x_range Lx Ly HLx) as Hrx.
  pose proof (step_y_range Lx Ly HLx HLy) as Hry.
  rewrite (T_x_on_both Lx Ly HLx HLy Hfits), (T_y_on_both Lx Ly HLx HLy Hfits).
  rewrite !take_indices_compose
    by (try lia; intros; apply on_both_range; assumption).
  eexists. split; [reflexivity|]. f_equal.
  apply map_ext_in. intros i Hi. apply In_arange in Hi.
  rewrite !on_both_compose by assumption.
  unfold on_both. destruct (i <? Lx * Ly);
    rewrite step_x_step_y by assumption; reflexivity.
Qed.

Lemma lattice_translations_commute_witness :
  exists c,
    take_indices (Lattice.T_x 3 2) (Lattice.T_y 3 2) = Some c /\
    take_indices (Lattice.T_y 3 2) (Lattice.T_x 3 2) = Some c.
Proof. apply (lattice_translations_commute 3 2); lia. Defined.

(** Spin inversion commutes with both translations. *)
Theorem lattice_spin_inversion_commutes (Lx Ly : Z) :
  0 < Lx -> 0 < Ly -> 2 * (Lx * Ly) <= 2^63 ->
  (exists c,
     take_indices (Lattice.S Lx Ly) (Lattice.T_x Lx Ly) = Some c /\
     take_indices (Lattice.T_x Lx Ly) (Lattice.S Lx Ly) = Some c) /\
  (exists c,
     take_indices (Lattice.S Lx Ly) (Lattice.T_y Lx Ly) = Some c /\
     take_indices (Lattice.T_y Lx Ly) (Lattice.S Lx Ly) = Some c).
Proof.
  intros HLx HLy Hfits.
  pose proof (N_pos Lx Ly HLx HLy) as HN. cbv zeta in HN.
  pose proof (step_x_range Lx Ly HLx) as Hrx.
  pose proof (step_y_range Lx Ly HLx HLy) as Hry.
  pose proof (S_flip Lx Ly HLx HLy) as HS. cbv zeta in HS.
  rewrite HS, (T_x_on_both Lx Ly HLx HLy Hfits),
    (T_y_on_both Lx Ly HLx HLy Hfits).
  rewrite !take_indices_compose
    by (try lia; intros;
        first [apply on_both_range; assumption | apply flip_range; assumption]).
  split; eexists; (split; [reflexivity|]); f_equal;
    apply map_ext_in; intros i Hi; apply In_arange in Hi;
    symmetry; apply flip_on_both; assumption.
Qed.

Lemma lattice_spin_inversion_commutes_witness :
  (exists c,
     take_indices (Lattice.S 3 2) (Lattice.T_x 3 2) = Some c /\
     take_indices (Lattice.T_x 3 2) (Lattice.S 3 2) = Some c) /\
  (exists c,
     take_indices (Lattice.S 3 2) (Lattice.T_y 3 2) = Some c /\
     take_indices (Lattice.T_y 3 2) (Lattice.S 3 2) = Some c).
Proof. apply (lattice_spin_inversion_commutes 3 2); lia. Defined.

(** On every lattice whose indices fit in [int64], [S] sends each site to
    the site with the same position in the other species, and applying it
    twice gives the site back. *)
Theorem lattice_spin_inversion_swaps_species (Lx Ly i : Z) :
  0 < Lx -> 0 < Ly -> 2 * (Lx * Ly) <= 2^63 ->
  0 <= i < 2 * (Lx * Ly) ->
  getitem (Lattice.S Lx Ly) i
    = Some (if i <? Lx * Ly then i + Lx * Ly else i - Lx * Ly) /\
  (v ← getitem (Lattice.S Lx Ly) i; getitem (Lattice.S Lx Ly) v) = Some i.
Proof.
  intros HLx HLy _ Hi. split.
  - rewrite S_getitem by assumption. f_equal. apply half_turn; [nia|exact Hi].
  - apply S_involution; assumption.
Qed.

Lemma lattice_spin_inversion_swaps_species_witness :
  getitem (Lattice.S 3 2) 4 = Some (if 4 <? 3 * 2 then 4 + 3 * 2 else 4 - 3 * 2)
  /\ (v ← getitem (Lattice.S 3 2) 4; getitem (Lattice.S 3 2) v) = Some 4.
Proof. apply (lattice_spin_inversion_swaps_species 3 2 4); lia. Defined.
End GeneratorTheorems.

(* ===================================================================== *)
(** ** The site-coupling lists on every lattice *)
(* ===================================================================== *)

Section CouplingTheorems.
Import Numpy Translation.

(** Every entry of a hopping comprehension is the coefficient, an index of
    the range and the array element at that index. *)
Lemma hops_entries (c : spec_float) (T : list Z) (n : Z)
      (l : list (list pyval)) :
  Lattice.hops c T n = Some l ->
  List.Forall
    (fun e => exists i v, 0 <= i < n /\ getitem T i = Some v /\
                          e = [PyFloat c; PyInt i; NpInt64 v]) l.
Proof.
  unfold Lattice.hops. intros E.
  assert (Hidx : List.Forall (fun i => 0 <= i < n) (range n))
    by (apply List.Forall_forall; intros i Hi; apply In_arange, Hi).
  revert Hidx l E. generalize (range n) as idx.
  induction idx as [|i idx IH]; intros Hidx l E.
  - inversion E. constructor.
  - inversion Hidx as [|? ? Hi Hrest]; subst.
    cbn [mapM] in E. destruct (getitem T i) as [v|] eqn:Ev; [|discriminate].
    cbn [mbind option_bind] in E.
    destruct (mapM _ idx) as [l'|] eqn:El in E; [|discriminate].
    cbn in E. inversion E; subst l.
    constructor; [exists i, v; auto|]. apply (IH Hrest l' El).
Qed.

Lemma on_both_species (f : Z -> Z) (N i : Z) :
  (forall v, 0 <= v < N -> 0 <= f v < N) -> 0 <= i < 2 * N ->
  (i < N <-> on_both f N i < N).
Proof.
  intros Hf Hi. unfold on_both. destruct (Z.ltb_spec i N).
  - pose proof (Hf i ltac:(lia)). lia.
  - pose proof (Hf (i - N) ltac:(lia)). lia.
Qed.

Lemma hops_keep_species (c : spec_float) (f : Z -> Z) (N : Z)
      (l : list (list pyval)) :
  (forall v, 0 <= v < N -> 0 <= f v < N) ->
  Lattice.hops c (map (on_both f N) (arange (2 * N))) (2 * N) = Some l ->
  List.Forall
    (fun e => exists i j, e = [PyFloat c; PyInt i; NpInt64 j] /\
                          0 <= i < 2 * N /\ 0 <= j < 2 * N /\
                          (i < N <-> j < N)) l.
Proof.
  intros Hf E. apply hops_entries in E.
  eapply List.Forall_impl; [|exact E].
  intros e (i & v & Hi & Ev & ->).
  rewrite getitem_map in Ev by exact Hi. inversion Ev; subst v.
  exists i, (on_both f N i). split; [reflexivity|]. split; [exact Hi|].
  split; [apply on_both_range; assumption|].
  apply on_both_species; assumption.
Qed.

(** On every lattice both hopping lists are built without an index error
    and have [4 * Lx * Ly] entries.  At each position they name the same two
    sites, with coefficient [-J] on the left and [+J] on the right, and the
    two sites of an entry are indices of [0, 2 * Lx * Ly) that belong to the
    same species: hopping never flips the spin. *)
Theorem lattice_hopping_conserves_species (Lx Ly : Z) (J : spec_float) :
  0 < Lx -> 0 < Ly -> 2 * (Lx * Ly) <= 2^63 ->
  exists l r,
    Lattice.hopping_left Lx Ly J = Some l /\
    Lattice.hopping_right Lx Ly J = Some r /\
    length l = Z.to_nat (4 * (Lx * Ly)) /\
    length r = Z.to_nat (4 * (Lx * Ly)) /\
    Forall2 (same_sites (float_neg J) (float_pos J)) l r /\
    List.Forall
      (fun e => exists i j,
           e = [PyFloat (float_neg J); PyInt i; NpInt64 j] /\
           0 <= i < 2 * (Lx * Ly) /\ 0 <= j < 2 * (Lx * Ly) /\
           (i < Lx * Ly <-> j < Lx * Ly)) l.
Proof.
  intros HLx HLy Hfits.
  destruct (hopping_lists Lx Ly J HLx HLy)
    as (lx & ly & rx & ry & Elx & Ely & _ & _ & El & Er & Hlx & Hly & HF).
  exists (lx ++ ly)%list, (rx ++ ry)%list.
  pose proof (Forall2_length _ _ _ HF) as Hlen.
  assert (Hl : length (lx ++ ly)%list = Z.to_nat (4 * (Lx * Ly)))
    by (rewrite length_app, Hlx, Hly; lia).
  split; [exact El|]. split; [exact Er|]. split; [exact Hl|].
  split; [congruence|]. split; [exact HF|].
  rewrite (T_x_on_both Lx Ly HLx HLy Hfits) in Elx.
  rewrite (T_y_on_both Lx Ly HLx HLy Hfits) in Ely.
  apply List.Forall_app. split.
  - apply (hops_keep_species _ _ _ _ (step_x_range Lx Ly HLx) Elx).
  - apply (hops_keep_species _ _ _ _ (step_y_range Lx Ly HLx HLy) Ely).
Qed.

Lemma lattice_hopping_conserves_species_witness :
  exists l r,
    Lattice.hopping_left 3 2 Example.J = Some l /\
    Lattice.hopping_right 3 2 Example.J = Some r /\
    length l = Z.to_nat (4 * (3 * 2)) /\
    length r = Z.to_nat (4 * (3 * 2)) /\
    Forall2 (same_sites (float_neg Example.J) (float_pos Example.J)) l r /\
    List.Forall
      (fun e => exists i j,
           e = [PyFloat (float_neg Example.J); PyInt i; NpInt64 j] /\
           0 <= i < 2 * (3 * 2) /\ 0 <= j < 2 * (3 * 2) /\
           (i < 3 * 2 <-> j < 3 * 2)) l.
Proof. apply (lattice_hopping_conserves_species 3 2 Example.J); lia. Defined.

(** On every lattice whose indices fit in [int64], the interaction list has
    one entry per site of the first species, and the entry of site [i]
    couples [i] to [S[i]], its partner in the other species. *)
Theorem lattice_interaction_pairs_spin_partners
    (Lx Ly : Z) (U : spec_float) :
  0 < Lx -> 0 < Ly -> 2 * (Lx * Ly) <= 2^63 ->
  length (Lattice.interaction Lx Ly U) = Z.to_nat (Lx * Ly) /\
  (forall i, 0 <= i < Lx * Ly ->
     exists j,
       getitem (Lattice.S Lx Ly) i = Some j /\
       Lattice.interaction Lx Ly U !! Z.to_nat i
         = Some [PyFloat U; PyInt i; PyInt j]).
Proof.
  intros HLx HLy _. split; [apply interaction_length|].
  intros i Hi. exists (i + Lx * Ly). split.
  - rewrite S_getitem by (try assumption; lia).
    f_equal. apply Z.mod_small. lia.
  - apply interaction_lookup, Hi.
Qed.

Lemma lattice_interaction_pairs_spin_partners_witness :
  exists j,
    getitem (Lattice.S 3 2) 5 = Some j /\
    Lattice.interaction 3 2 Example.U !! Z.to_nat 5
      = Some [PyFloat Example.U; PyInt 5; PyInt j].
Proof.
  apply (proj2 (lattice_interaction_pairs_spin_partners 3 2 Example.U
                  ltac:(lia) ltac:(lia) ltac:(lia)) 5).
  lia.
Defined.

End CouplingTheorems.

(* ===================================================================== *)
(** ** The [static] list *)
(* ===================================================================== *)

Section StaticTheorems.
Import Numpy Translation Terms.

Lemma is_site_PyInt (M i : Z) : 0 <= i < M -> is_site M (PyInt i) = true.
Proof.
  intros H. unfold is_site, site_index.
  apply andb_true_intro. split; [apply Z.leb_le|apply Z.ltb_lt]; lia.
Qed.

Lemma is_site_NpInt64 (M i : Z) : 0 <= i < M -> is_site M (NpInt64 i) = true.
Proof.
  intros H. unfold is_site, site_index.
  apply andb_true_intro. split; [apply Z.leb_le|apply Z.ltb_lt]; lia.
Qed.

Lemma hops_term_ok (opstr : string) (c : spec_float) (f : Z -> Z) (N : Z)
      (l : list (list pyval)) :
  String.length opstr = 2%nat ->
  (forall v, 0 <= v < N -> 0 <= f v < N) ->
  Lattice.hops c (map (on_both f N) (arange (2 * N))) (2 * N) = Some l ->
  forallb (entry_ok opstr (2 * N)) l = true.
Proof.
  intros Hop Hf E. apply forallb_forall. intros e He.
  pose proof (hops_keep_species c f N l Hf E) as HF.
  rewrite List.Forall_forall in HF.
  destruct (HF e He) as (i & j & -> & Hi & Hj & _).
  unfold entry_ok. rewrite Hop. cbn [length Nat.eqb forallb andb].
  rewrite is_site_PyInt, is_site_NpInt64 by assumption. reflexivity.
Qed.

(** On every lattice the [static] list is built without an index error and
    holds the four operator strings "+-", "-+", "n", "nn" in this order;
    every entry of every coupling list is a coefficient followed by exactly
    one site index per character of its operator string, and every site
    index is one of the [2 * Lx * Ly] sites of the basis. *)
Theorem lattice_static_well_formed (Lx Ly : Z) (J U mu : spec_float) :
  0 < Lx -> 0 < Ly -> 2 * (Lx * Ly) <= 2^63 ->
  exists st,
    Terms.static Lx Ly J U mu = Some st /\
    map fst st = ["+-"; "-+"; "n"; "nn"]%string /\
    forallb (term_ok (2 * (Lx * Ly))) st = true.
Proof.
  intros HLx HLy Hfits.
  destruct (hopping_lists Lx Ly J HLx HLy)
    as (lx & ly & rx & ry & Elx & Ely & Erx & Ery & El & Er & _).
  unfold Terms.static. rewrite El, Er. cbn [mbind option_bind].
  eexists. split; [reflexivity|]. split; [reflexivity|].
  rewrite (T_x_on_both Lx Ly HLx HLy Hfits) in Elx, Erx.
  rewrite (T_y_on_both Lx Ly HLx HLy Hfits) in Ely, Ery.
  pose proof (step_x_range Lx Ly HLx) as Hx.
  pose proof (step_y_range Lx Ly HLx HLy) as Hy.
  cbn [forallb]. unfold term_ok. cbn [fst snd].
  rewrite !forallb_app.
  rewrite (hops_term_ok "+-" _ _ _ lx eq_refl Hx Elx).
  rewrite (hops_term_ok "+-" _ _ _ ly eq_refl Hy Ely).
  rewrite (hops_term_ok "-+" _ _ _ rx eq_refl Hx Erx).
  rewrite (hops_term_ok "-+" _ _ _ ry eq_refl Hy Ery).
  cbn [andb]. apply andb_true_intro. split; [|rewrite andb_true_r].
  - apply forallb_forall. intros e He.
    unfold Lattice.potential in He. apply in_map_iff in He.
    destruct He as (i & <- & Hi). apply In_arange in Hi.
    unfold Lattice.N_2d in Hi. unfold entry_ok.
    cbn [length String.length Nat.eqb forallb andb].
    rewrite is_site_PyInt by exact Hi. reflexivity.
  - apply forallb_forall. intros e He.
    unfold Lattice.interaction in He. apply in_map_iff in He.
    destruct He as (i & <- & Hi). apply In_arange in Hi.
    unfold Lattice.N_2d in *. unfold entry_ok.
    cbn [length String.length Nat.eqb forallb andb].
    rewrite !is_site_PyInt by lia. reflexivity.
Qed.

Lemma lattice_static_well_formed_witness :
  exists st,
    Terms.static 4 4 Example.J Example.U Example.mu = Some st /\
    map fst st = ["+-"; "-+"; "n"; "nn"]%string /\
    forallb (term_ok (2 * (4 * 4))) st = true.
Proof.
  apply (lattice_static_well_formed 4 4 Example.J Example.U Example.mu); lia.
Defined.
End StaticTheorems.

(* ===================================================================== *)
(** ** Lattices of width or height one *)
(* ===================================================================== *)

Section FixedPoints.
Import Numpy Translation.

Lemma succ_mod_neq (L a : Z) : 1 < L -> 0 <= a < L -> (a + 1) mod L <> a.
Proof.
  intros HL Ha. destruct (Z.eq_dec (a + 1) L) as [E|E].
  - rewrite E, Z.mod_same by lia. lia.
  - rewrite Z.mod_small by lia. lia.
Qed.

Lemma on_both_fixed (f : Z -> Z) (N i : Z) :
  0 <= i < 2 * N -> on_both f N i = i ->
  exists v, 0 <= v < N /\ f v = v.
Proof.
  intros Hi. unfold on_both. destruct (Z.ltb_spec i N); intros E.
  - exists i. split; [lia|exact E].
  - exists (i - N). split; lia.
Qed.

Lemma on_both_id (f : Z -> Z) (N : Z) :
  (forall v, 0 <= v < N -> f v = v) ->
  map (on_both f N) (arange (2 * N)) = arange (2 * N).
Proof.
  intros Hf. rewrite <- (map_id (arange (2 * N))) at 2.
  apply map_ext_in. intros i Hi. apply In_arange in Hi.
  unfold on_both. destruct (Z.ltb_spec i N); rewrite Hf; lia.
Qed.

Lemma hops_no_self (c : spec_float) (T : list Z) (n : Z)
      (l : list (list pyval)) :
  (forall i, 0 <= i < n -> getitem T i <> Some i) ->
  Lattice.hops c T n = Some l ->
  List.Forall
    (fun e => exists i j, e = [PyFloat c; PyInt i; NpInt64 j] /\ i <> j) l.
Proof.
  intros HT E. apply hops_entries in E.
  eapply List.Forall_impl; [|exact E].
  intros e (i & v & Hi & Ev & ->). exists i, v. split; [reflexivity|].
  intros <-. exact (HT i Hi Ev).
Qed.

Lemma T_x_moves (Lx Ly : Z) :
  0 < Lx -> 0 < Ly -> 2 * (Lx * Ly) <= 2^63 -> 1 < Lx ->
  forall i, 0 <= i < 2 * (Lx * Ly) -> getitem (Lattice.T_x Lx Ly) i <> Some i.
Proof.
  intros HLx HLy Hfits H1 i Hi.
  rewrite (T_x_on_both Lx Ly HLx HLy Hfits), getitem_map by exact Hi.
  intros E. inversion E as [E'].
  destruct (on_both_fixed _ _ _ Hi E') as (v & Hv & Ev).
  pose proof (step_x_mod Lx Ly HLx v) as Hm. rewrite Ev in Hm.
  apply (succ_mod_neq Lx (v mod Lx) H1); [|congruence].
  apply Z.mod_pos_bound. lia.
Qed.

Lemma T_y_moves (Lx Ly : Z) :
  0 < Lx -> 0 < Ly -> 2 * (Lx * Ly) <= 2^63 -> 1 < Ly ->
  forall i, 0 <= i < 2 * (Lx * Ly) -> getitem (Lattice.T_y Lx Ly) i <> Some i.
Proof.
  intros HLx HLy Hfits H1 i Hi.
  rewrite (T_y_on_both Lx Ly HLx HLy Hfits), getitem_map by exact Hi.
  intros E. inversion E as [E'].
  destruct (on_both_fixed _ _ _ Hi E') as (v & Hv & Ev).
  pose proof (step_y_div Lx Ly HLx v) as Hd. rewrite Ev in Hd.
  apply (succ_mod_neq Ly (v / Lx) H1); [|congruence].
  apply row_bound; assumption.
Qed.

(** A translation along a direction in which the lattice has a single site
    is the identity array; along a direction with more than one site it
    moves every site.  When the lattice has more than one site in both
    directions, no entry of [hopping_left] or of [hopping_right] couples a
    site to itself. *)
Theorem lattice_translation_fixed_points (Lx Ly : Z) (J : spec_float) :
  0 < Lx -> 0 < Ly -> 2 * (Lx * Ly) <= 2^63 ->
  (Lx = 1 -> Lattice.T_x Lx Ly = arange (2 * (Lx * Ly))) /\
  (Ly = 1 -> Lattice.T_y Lx Ly = arange (2 * (Lx * Ly))) /\
  (1 < Lx -> forall i, 0 <= i < 2 * (Lx * Ly) ->
             getitem (Lattice.T_x Lx Ly) i <> Some i) /\
  (1 < Ly -> forall i, 0 <= i < 2 * (Lx * Ly) ->
             getitem (Lattice.T_y Lx Ly) i <> Some i) /\
  (1 < Lx -> 1 < Ly ->
   exists l r,
     Lattice.hopping_left Lx Ly J = Some l /\
     Lattice.hopping_right Lx Ly J = Some r /\
     List.Forall
       (fun e => exists i j,
            e = [PyFloat (float_neg J); PyInt i; NpInt64 j] /\ i <> j) l /\
     List.Forall
       (fun e => exists i j,
            e = [PyFloat (float_pos J); PyInt i; NpInt64 j] /\ i <> j) r).
Proof.
  intros HLx HLy Hfits.
  split; [|split; [|split; [|split]]].
  - intros ->. rewrite (T_x_on_both 1 Ly HLx HLy Hfits).
    apply on_both_id. intros v _. unfold step_x.
    rewrite !Z.mod_1_r, Z.div_1_r. lia.
  - intros ->. rewrite (T_y_on_both Lx 1 HLx HLy Hfits).
    apply on_both_id. intros v Hv. unfold step_y.
    rewrite Z.mod_1_r, Z.mod_small by lia. lia.
  - apply T_x_moves; assumption.
  - apply T_y_moves; assumption.
  - intros Hx Hy.
    destruct (hopping_lists Lx Ly J HLx HLy)
      as (lx & ly & rx & ry & Elx & Ely & Erx & Ery & El & Er & _).
    exists (lx ++ ly)%list, (rx ++ ry)%list.
    pose proof (T_x_moves Lx Ly HLx HLy Hfits Hx) as Mx.
    pose proof (T_y_moves Lx Ly HLx HLy Hfits Hy) as My.
    split; [exact El|]. split; [exact Er|].
    split; apply List.Forall_app; split.
    + exact (hops_no_self _ _ _ _ Mx Elx).
    + exact (hops_no_self _ _ _ _ My Ely).
    + exact (hops_no_self _ _ _ _ Mx Erx).
    + exact (hops_no_self _ _ _ _ My Ery).
Qed.

Lemma lattice_translation_fixed_points_witness :
  Lattice.T_x 1 3 = arange (2 * (1 * 3)) /\
  Lattice.T_y 3 1 = arange (2 * (3 * 1)) /\
  getitem (Lattice.T_x 3 2) 7 <> Some 7 /\
  getitem (Lattice.T_y 3 2) 7 <> Some 7 /\
  (exists l r,
     Lattice.hopping_left 3 2 Example.J = Some l /\
     Lattice.hopping_right 3 2 Example.J = Some r /\
     List.Forall
       (fun e => exists i j,
            e = [PyFloat (float_neg Example.J); PyInt i; NpInt64 j] /\
            i <> j) l /\
     List.Forall
       (fun e => exists i j,
            e = [PyFloat (float_pos Example.J); PyInt i; NpInt64 j] /\
            i <> j) r).
Proof.
  split; [|split; [|split; [|split]]].
  - apply (proj1 (lattice_translation_fixed_points 1 3 Example.J
                    ltac:(lia) ltac:(lia) ltac:(lia)) eq_refl).
  - apply (proj1 (proj2 (lattice_translation_fixed_points 3 1 Example.J
                    ltac:(lia) ltac:(lia) ltac:(lia))) eq_refl).
  - apply (proj1 (proj2 (proj2 (lattice_translation_fixed_points 3 2
                    Example.J ltac:(lia) ltac:(lia) ltac:(lia))))
             ltac:(lia) 7).
    lia.
  - apply (proj1 (proj2 (proj2 (proj2 (lattice_translation_fixed_points 3 2
                    Example.J ltac:(lia) ltac:(lia) ltac:(lia)))))
             ltac:(lia) 7).
    lia.
  - apply (proj2 (proj2 (proj2 (proj2 (lattice_translation_fixed_points 3 2
                    Example.J ltac:(lia) ltac:(lia) ltac:(lia)))))
             ltac:(lia) ltac:(lia)).
Defined.
End FixedPoints.
